(** * Demo-mode interception engine of the Hytale server manager backend

    A shallow embedding of
      - manager/backend/src/middleware/demo.ts  (route-to-action resolution,
        identity extraction, the interception middleware), and
      - manager/backend/src/services/demo.ts    (demo policy, session store,
        reset scheduler, simulated response envelope),
    followed by the properties the specification states about them.

    Modelling conventions.
      - A JavaScript string is a [string] (a sequence of bytes).  The only
        character the code inspects individually is the separator '/', whose
        byte never occurs inside a multi-byte character, so matching a
        negated class [^/] per byte or per code unit accepts the same paths.
      - [undefined] and [null] of a [string | undefined] value are [None].
      - An object literal is the list of its own properties in insertion
        order.  A property read [o[k]] goes through the prototype chain: a
        key that is no own property of the literal reads the member of
        Object.prototype of that name, and a further read on the built-in
        object so obtained follows that object's own chain.
      - A [Date] is its time value in milliseconds, an integer ([Z]); the
        reset interval is a whole number of hours.
      - Collaborators that live outside the modelled files ([config],
        [verifyToken], [createAccessToken], [createRefreshToken]) are
        variables of the enclosing section. *)

From Stdlib Require Import ZArith Ascii String List Bool Lia.
From stdpp Require Import base option list strings pretty gmap fin_maps.

Local Open Scope Z_scope.

(** ** JavaScript values and primitives used by the code *)

Module Js.

(** Truthiness of a [string | undefined]: the empty string and [undefined]
    are falsy. *)
Definition truthy (v : option string) : bool :=
  match v with
  | Some (String _ _) => true
  | _ => false
  end.

(** [a || b] on [string | undefined] operands. *)
Definition or (a b : option string) : option string :=
  if truthy a then a else b.

(** The own property [k] of an object literal, if it has one. *)
Fixpoint own {V : Type} (o : list (string * V)) (k : string) : option V :=
  match o with
  | [] => None
  | (k', v) :: o' => if String.eqb k' k then Some v else own o' k
  end.

(** [a === b] on [string | undefined] operands. *)
Definition strict_eq (a b : option string) : bool :=
  match a, b with
  | Some x, Some y => String.eqb x y
  | None, None => true
  | _, _ => false
  end.

(** [arr.includes(x)] on an array of strings. *)
Definition includes (arr : list string) (x : string) : bool :=
  existsb (String.eqb x) arr.

(** Outcome of evaluating an expression or a function body. *)
Inductive completion (A : Type) : Type :=
| Normal (a : A)
| Throw (err : string).
Arguments Normal {A} a.
Arguments Throw {A} err.

Definition bind {A B : Type} (c : completion A) (k : A -> completion B)
  : completion B :=
  match c with
  | Normal a => k a
  | Throw e => Throw e
  end.

(** [p] is an initial part of [s]. *)
Fixpoint prefix (p s : string) {struct p} : bool :=
  match p with
  | EmptyString => true
  | String a p' =>
      match s with
      | EmptyString => false
      | String b s' => Ascii.eqb a b && prefix p' s'
      end
  end.

(** [s.startsWith(p)]: a method call on [undefined] is a TypeError. *)
Definition startsWith (s : option string) (p : string) : completion bool :=
  match s with
  | Some s => Normal (prefix p s)
  | None => Throw "TypeError"
  end.

(** [s.substring(n)]. *)
Definition substring (s : option string) (n : nat) : completion string :=
  match s with
  | Some s => Normal (String.substring n (String.length s - n) s)
  | None => Throw "TypeError"
  end.

(** *** The prototype chain

    An object literal inherits from Object.prototype, so a read [o[k]] that
    finds no own property [k] yields the member [k] of Object.prototype, if
    there is one.  The built-in objects such a read can reach: *)
Inductive object_ref : Type :=
| Builtin (home name : string) (length : Z)
    (* a built-in function: the object that holds it, its own [name] and
       its own [length] *)
| ObjectPrototype       (* Object.prototype *)
| FunctionPrototype.    (* Function.prototype *)

(** The values the resolver can return or hand on. *)
Inductive value : Type :=
| VUndefined
| VNull
| VString (s : string)
| VNumber (n : Z)
| VObject (o : object_ref).

(** The methods of Object.prototype.  Its remaining member, [__proto__], is
    an accessor: it yields the prototype of the object it is read on. *)
Definition object_prototype_methods : list (string * object_ref) :=
  [ ("constructor", Builtin "" "Object" 1);
    ("__defineGetter__", Builtin "Object.prototype" "__defineGetter__" 2);
    ("__defineSetter__", Builtin "Object.prototype" "__defineSetter__" 2);
    ("hasOwnProperty", Builtin "Object.prototype" "hasOwnProperty" 1);
    ("__lookupGetter__", Builtin "Object.prototype" "__lookupGetter__" 1);
    ("__lookupSetter__", Builtin "Object.prototype" "__lookupSetter__" 1);
    ("isPrototypeOf", Builtin "Object.prototype" "isPrototypeOf" 1);
    ("propertyIsEnumerable", Builtin "Object.prototype" "propertyIsEnumerable" 1);
    ("toString", Builtin "Object.prototype" "toString" 0);
    ("valueOf", Builtin "Object.prototype" "valueOf" 0);
    ("toLocaleString", Builtin "Object.prototype" "toLocaleString" 0) ].

(** The methods of Function.prototype.  Its members [caller] and
    [arguments] are accessors that throw a TypeError. *)
Definition function_prototype_methods : list (string * object_ref) :=
  [ ("apply", Builtin "Function.prototype" "apply" 2);
    ("bind", Builtin "Function.prototype" "bind" 1);
    ("call", Builtin "Function.prototype" "call" 1);
    ("toString", Builtin "Function.prototype" "toString" 0);
    ("constructor", Builtin "" "Function" 1) ].

(** The own properties of the constructor [Object], besides [name] and
    [length] (ECMAScript 2024). *)
Definition object_constructor_properties : list (string * object_ref) :=
  [ ("prototype", ObjectPrototype);
    ("assign", Builtin "Object" "assign" 2);
    ("create", Builtin "Object" "create" 2);
    ("defineProperties", Builtin "Object" "defineProperties" 2);
    ("defineProperty", Builtin "Object" "defineProperty" 3);
    ("entries", Builtin "Object" "entries" 1);
    ("freeze", Builtin "Object" "freeze" 1);
    ("fromEntries", Builtin "Object" "fromEntries" 1);
    ("getOwnPropertyDescriptor", Builtin "Object" "getOwnPropertyDescriptor" 2);
    ("getOwnPropertyDescriptors", Builtin "Object" "getOwnPropertyDescriptors" 1);
    ("getOwnPropertyNames", Builtin "Object" "getOwnPropertyNames" 1);
    ("getOwnPropertySymbols", Builtin "Object" "getOwnPropertySymbols" 1);
    ("getPrototypeOf", Builtin "Object" "getPrototypeOf" 1);
    ("groupBy", Builtin "Object" "groupBy" 2);
    ("hasOwn", Builtin "Object" "hasOwn" 2);
    ("is", Builtin "Object" "is" 2);
    ("isExtensible", Builtin "Object" "isExtensible" 1);
    ("isFrozen", Builtin "Object" "isFrozen" 1);
    ("isSealed", Builtin "Object" "isSealed" 1);
    ("keys", Builtin "Object" "keys" 1);
    ("preventExtensions", Builtin "Object" "preventExtensions" 1);
    ("seal", Builtin "Object" "seal" 1);
    ("setPrototypeOf", Builtin "Object" "setPrototypeOf" 2);
    ("values", Builtin "Object" "values" 1) ].

(** The own properties of a built-in function besides [name] and [length]:
    only the constructors [Object] and [Function] have any. *)
Definition builtin_properties (home name : string) : list (string * object_ref) :=
  if String.eqb home "" && String.eqb name "Object" then object_constructor_properties
  else if String.eqb home "" && String.eqb name "Function" then [("prototype", FunctionPrototype)]
  else [].

(** The member found along a chain, or [undefined]. *)
Definition of_ref (o : option object_ref) : value :=
  match o with
  | Some r => VObject r
  | None => VUndefined
  end.

(** What an object literal without own property [k] inherits under [k]. *)
Definition inherited (k : string) : option object_ref :=
  if String.eqb k "__proto__" then Some ObjectPrototype
  else own object_prototype_methods k.

(** [o[k]] on an object literal whose own properties are strings. *)
Definition get (o : list (string * string)) (k : string) : value :=
  match own o k with
  | Some s => VString s
  | None => of_ref (inherited k)
  end.

(** The members a function inherits from Function.prototype and, through
    it, from Object.prototype. *)
Definition function_inherited (k : string) : completion value :=
  if String.eqb k "caller" || String.eqb k "arguments" then Throw "TypeError"
  else
    match own function_prototype_methods k with
    | Some r => Normal (VObject r)
    | None => Normal (of_ref (own object_prototype_methods k))
    end.

(** [o[k]] on a built-in object. *)
Definition member (o : object_ref) (k : string) : completion value :=
  match o with
  | Builtin home name length =>
      if String.eqb k "name" then Normal (VString name)
      else if String.eqb k "length" then Normal (VNumber length)
      else
        match own (builtin_properties home name) k with
        | Some r => Normal (VObject r)
        | None =>
            if String.eqb k "__proto__" then Normal (VObject FunctionPrototype)
            else function_inherited k
        end
  | FunctionPrototype =>
      if String.eqb k "name" then Normal (VString "")
      else if String.eqb k "length" then Normal (VNumber 0)
      else if String.eqb k "__proto__" then Normal (VObject ObjectPrototype)
      else function_inherited k
  | ObjectPrototype =>
      if String.eqb k "__proto__" then Normal VNull
      else Normal (of_ref (own object_prototype_methods k))
  end.

(** Truthiness of a value: [undefined], [null], the empty string and the
    number 0 are falsy. *)
Definition truthy_value (v : value) : bool :=
  match v with
  | VUndefined | VNull => false
  | VString s => truthy (Some s)
  | VNumber n => negb (n =? 0)
  | VObject _ => true
  end.

(** [a || b] on values. *)
Definition or_value (a b : value) : value :=
  if truthy_value a then a else b.

(** A [string | undefined] as a value. *)
Definition of_option (o : option string) : value :=
  match o with
  | Some s => VString s
  | None => VUndefined
  end.

(** The delay of a timer armed by [setInterval(f, delay)], for an integral
    [delay]: a delay below 1 or above 2147483647 is set to 1. *)
Definition timer_delay (delay : Z) : Z :=
  if (delay <? 1) || (2147483647 <? delay) then 1 else delay.

End Js.

Notation "'let*' x ':=' c 'in' k" := (Js.bind c (fun x => k))
  (at level 10, x name, c at level 100, k at level 200).

(** ** The regular expressions the route resolver builds

    Every regular expression in the resolver is a sequence of literal
    characters and of the token [[^/]+], anchored at both ends. *)

Module Re.

Inductive atom : Type :=
| Chr (c : ascii)       (* a literal character *)
| Seg.                  (* [^/]+ : one or more characters other than '/' *)

Definition regex : Type := list atom.

Definition is_slash (c : ascii) : bool := Ascii.eqb c "/".
Definition is_colon (c : ascii) : bool := Ascii.eqb c ":".

(** [re.test(s)] for the anchored expression [^ r $]. *)
Fixpoint test (r : regex) (s : string) {struct r} : bool :=
  match r with
  | [] => match s with EmptyString => true | String _ _ => false end
  | Chr c :: r' =>
      match s with
      | String c' s' => Ascii.eqb c c' && test r' s'
      | EmptyString => false
      end
  | Seg :: r' =>
      (fix run (s : string) : bool :=
         match s with
         | EmptyString => false
         | String c s' => negb (is_slash c) && (test r' s' || run s')
         end) s
  end.

(** Reading the body of a regular expression: the five characters
    [[^/]+] form the token [Seg], any other character stands for itself.
    [skip] counts the characters of a token still to be passed over. *)
Fixpoint parse_from (skip : nat) (src : string) : regex :=
  match src with
  | EmptyString => []
  | String c rest =>
      match skip with
      | S k => parse_from k rest
      | O =>
          if Js.prefix "[^/]+" src
          then Seg :: parse_from 4 rest
          else Chr c :: parse_from 0 rest
      end
  end.

(** [new RegExp(`^${body}$`)]. *)
Definition anchored (body : string) : regex := parse_from 0 body.

(** [s.replace(/:[^/]+/g, '[^/]+')]: every ':' followed by at least one
    character other than '/' is replaced, together with the longest run of
    such characters, by the text [[^/]+].  [inside] tells that the scan is
    within such a run. *)
Fixpoint replace_params_from (inside : bool) (s : string) : string :=
  match s with
  | EmptyString => EmptyString
  | String c rest =>
      if inside then
        if is_slash c then String c (replace_params_from false rest)
        else replace_params_from true rest
      else if is_colon c
              && match rest with
                 | String d _ => negb (is_slash d)
                 | EmptyString => false
                 end
      then "[^/]+" +:+ replace_params_from true rest
      else String c (replace_params_from false rest)
  end.

Definition replace_params (s : string) : string := replace_params_from false s.

(** Characters with a special meaning in a regular expression body. *)
Definition is_meta (c : ascii) : bool :=
  existsb (Ascii.eqb c)
    ["\"; "^"; "$"; "."; "|"; "?"; "*"; "+"; "("; ")"; "["; "]"; "{"; "}"]%char.

Fixpoint all_chars (p : ascii -> bool) (s : string) : bool :=
  match s with
  | EmptyString => true
  | String c s' => p c && all_chars p s'
  end.

(** A route key the pattern conversion leaves as it is: no parameter
    marker and no special character. *)
Definition plain (s : string) : bool :=
  all_chars (fun c => negb (is_colon c) && negb (is_meta c)) s.

Definition no_slash (s : string) : bool :=
  all_chars (fun c => negb (is_slash c)) s.

Fixpoint literal (s : string) : regex :=
  match s with
  | EmptyString => []
  | String c s' => Chr c :: literal s'
  end.

Definition wildcards (r : regex) : nat :=
  List.length (List.filter (fun a => match a with Seg => true | Chr _ => false end) r).

End Re.

(** ** middleware/demo.ts: the action registry *)

(** Map of routes to their corresponding action permissions. *)
Definition ROUTE_ACTION_MAP : list (string * list (string * string)) :=
  [ (* Server routes *)
    ("/api/server/start", [("POST", "server.start")]);
    ("/api/server/stop", [("POST", "server.stop")]);
    ("/api/server/restart", [("POST", "server.restart")]);
    ("/api/server/quick-settings", [("PUT", "config.edit")]);
    ("/api/server/config", [("PUT", "config.edit")]);
    ("/api/server/patchline", [("PUT", "config.edit")]);
    (* Console routes *)
    ("/api/console/command", [("POST", "console.execute")]);
    (* Player routes *)
    ("/api/players", [("POST", "players.kick")]);
    ("/api/management/whitelist",
      [("POST", "players.whitelist"); ("PUT", "players.whitelist");
       ("DELETE", "players.whitelist")]);
    ("/api/management/bans", [("POST", "players.ban"); ("DELETE", "players.unban")]);
    ("/api/management/permissions",
      [("POST", "players.permissions"); ("PUT", "players.permissions");
       ("DELETE", "players.permissions")]);
    (* Backup routes *)
    ("/api/backups", [("POST", "backups.create"); ("DELETE", "backups.delete")]);
    ("/api/backups/restore", [("POST", "backups.restore")]);
    (* Scheduler routes *)
    ("/api/scheduler",
      [("POST", "scheduler.edit"); ("PUT", "scheduler.edit"); ("DELETE", "scheduler.edit")]);
    ("/api/scheduler/tasks",
      [("POST", "scheduler.edit"); ("PUT", "scheduler.edit"); ("DELETE", "scheduler.edit")]);
    ("/api/scheduler/config", [("PUT", "scheduler.edit")]);
    ("/api/scheduler/backup/run", [("POST", "backups.create")]);
    ("/api/scheduler/quick-commands", [("POST", "scheduler.edit")]);
    ("/api/scheduler/broadcast", [("POST", "scheduler.edit")]);
    ("/api/scheduler/restart/cancel", [("POST", "scheduler.edit")]);
    (* Assets routes *)
    ("/api/assets/extract", [("POST", "assets.manage")]);
    ("/api/assets/cache", [("DELETE", "assets.manage")]);
    (* KyuubiSoft Plugin routes *)
    ("/api/server/plugin/install", [("POST", "mods.install")]);
    ("/api/server/plugin/uninstall", [("DELETE", "mods.install")]);
    (* World routes *)
    ("/api/management/worlds",
      [("POST", "worlds.manage"); ("PUT", "worlds.manage"); ("DELETE", "worlds.manage")]);
    (* Mod routes *)
    ("/api/management/mods", [("POST", "mods.install"); ("DELETE", "mods.delete")]);
    ("/api/management/mods/upload", [("POST", "mods.install")]);
    ("/api/management/mods/toggle", [("POST", "mods.toggle")]);
    ("/api/management/mods/config", [("PUT", "mods.config")]);
    (* Plugin routes *)
    ("/api/management/plugins", [("POST", "plugins.install"); ("DELETE", "plugins.delete")]);
    ("/api/management/plugins/upload", [("POST", "plugins.install")]);
    ("/api/management/plugins/toggle", [("POST", "plugins.toggle")]);
    ("/api/management/plugins/config", [("PUT", "plugins.config")]);
    (* User routes *)
    ("/api/auth/users",
      [("POST", "users.create"); ("PUT", "users.edit"); ("DELETE", "users.delete")]);
    (* Role routes *)
    ("/api/roles",
      [("POST", "roles.manage"); ("PUT", "roles.manage"); ("DELETE", "roles.manage")]);
    (* Settings routes *)
    ("/api/management/settings", [("PUT", "settings.edit")]);
    (* Hytale auth routes *)
    ("/api/auth/hytale/initiate", [("POST", "hytale_auth.manage")]);
    ("/api/auth/hytale/reset", [("POST", "hytale_auth.manage")]);
    ("/api/auth/hytale/persistence", [("POST", "hytale_auth.manage")]);
    (* Chat routes *)
    ("/api/chat/send", [("POST", "chat.send")]);
    (* Activity routes *)
    ("/api/management/activity", [("DELETE", "activity.clear")]) ].

(** A regular expression literal [/^...$/] of the source, written without
    the escapes of its separators. *)
Definition rx (body : string) : Re.regex := Re.anchored body.

(** [if (path.match(re) && method === m) return a] *)
Definition route_is (re : Re.regex) (m : string) (path method : string) : bool :=
  Re.test re path && String.eqb method m.

(** Check exact match first: [routeMap && routeMap[method]], where
    [routeMap] is [ROUTE_ACTION_MAP[path]].  The result is the value the
    resolver returns here, or [None] when it goes on to the loop. *)
Definition exact_match (table : list (string * list (string * string)))
    (path method : string) : Js.completion (option Js.value) :=
  match Js.own table path with
  | Some routeMap =>
      Js.Normal (if Js.truthy_value (Js.get routeMap method)
                 then Some (Js.get routeMap method) else None)
  | None =>
      match Js.inherited path with
      | Some routeMap =>
          let* found := Js.member routeMap method in
          Js.Normal (if Js.truthy_value found then Some found else None)
      | None => Js.Normal None
      end
  end.

(** Check pattern matches (for routes with parameters): the loop over
    [Object.entries], which returns at the first entry whose pattern
    matches the path and whose method map has a truthy member under the
    method. *)
Fixpoint pattern_loop (entries : list (string * list (string * string)))
    (path method : string) : option Js.value :=
  match entries with
  | [] => None
  | (routePattern, methodMap) :: rest =>
      let regexPattern := Re.replace_params routePattern in
      let regex := Re.anchored regexPattern in
      if Re.test regex path && Js.truthy_value (Js.get methodMap method)
      then Some (Js.get methodMap method)
      else pattern_loop rest path method
  end.

(** Check for dynamic route patterns: the hard-coded predicates. *)
Definition dynamic_routes (path method : string) : option string :=
  (* Player actions *)
  if route_is (rx "/api/players/[^/]+/kick") "POST" path method then Some "players.kick" else
  if route_is (rx "/api/players/[^/]+/ban") "POST" path method then Some "players.ban" else
  if route_is (rx "/api/players/[^/]+/ban") "DELETE" path method then Some "players.unban" else
  if route_is (rx "/api/players/[^/]+/teleport") "POST" path method then Some "players.teleport" else
  if route_is (rx "/api/players/[^/]+/teleport/death") "POST" path method then Some "players.teleport" else
  if route_is (rx "/api/players/[^/]+/kill") "POST" path method then Some "players.kill" else
  if route_is (rx "/api/players/[^/]+/heal") "POST" path method then Some "players.heal" else
  if route_is (rx "/api/players/[^/]+/gamemode") "POST" path method then Some "players.gamemode" else
  if route_is (rx "/api/players/[^/]+/give") "POST" path method then Some "players.give" else
  if route_is (rx "/api/players/[^/]+/effect") "POST" path method then Some "players.effects" else
  if route_is (rx "/api/players/[^/]+/inventory/clear") "POST" path method then Some "players.clear_inventory" else
  if route_is (rx "/api/players/[^/]+/message") "POST" path method then Some "players.message" else
  if route_is (rx "/api/players/[^/]+/whitelist") "POST" path method then Some "players.whitelist" else
  if route_is (rx "/api/players/[^/]+/whitelist") "DELETE" path method then Some "players.whitelist" else
  if route_is (rx "/api/players/[^/]+/op") "POST" path method then Some "players.op" else
  if route_is (rx "/api/players/[^/]+/op") "DELETE" path method then Some "players.op" else
  if route_is (rx "/api/players/[^/]+/respawn") "POST" path method then Some "players.respawn" else
  if route_is (rx "/api/players/[^/]+/deaths") "POST" path method then Some "players.edit" else
  (* User management *)
  if route_is (rx "/api/auth/users/[^/]+") "PUT" path method then Some "users.edit" else
  if route_is (rx "/api/auth/users/[^/]+") "DELETE" path method then Some "users.delete" else
  (* Roles *)
  if route_is (rx "/api/roles/[^/]+") "PUT" path method then Some "roles.manage" else
  if route_is (rx "/api/roles/[^/]+") "DELETE" path method then Some "roles.manage" else
  (* Backups *)
  if route_is (rx "/api/backups/[^/]+") "DELETE" path method then Some "backups.delete" else
  if route_is (rx "/api/backups/[^/]+/restore") "POST" path method then Some "backups.restore" else
  (* Scheduler *)
  if route_is (rx "/api/scheduler/tasks/[^/]+") "PUT" path method then Some "scheduler.edit" else
  if route_is (rx "/api/scheduler/tasks/[^/]+") "DELETE" path method then Some "scheduler.edit" else
  if route_is (rx "/api/scheduler/quick-commands/[^/]+") "PUT" path method then Some "scheduler.edit" else
  if route_is (rx "/api/scheduler/quick-commands/[^/]+") "DELETE" path method then Some "scheduler.edit" else
  if route_is (rx "/api/scheduler/quick-commands/[^/]+/execute") "POST" path method then Some "scheduler.edit" else
  (* Whitelist & Bans management *)
  if route_is (rx "/api/management/whitelist/[^/]+") "DELETE" path method then Some "players.whitelist" else
  if route_is (rx "/api/management/bans/[^/]+") "DELETE" path method then Some "players.unban" else
  (* Permissions management *)
  if route_is (rx "/api/management/permissions/users/[^/]+") "DELETE" path method then Some "players.permissions" else
  if route_is (rx "/api/management/permissions/groups/[^/]+") "DELETE" path method then Some "players.permissions" else
  (* Config files *)
  if route_is (rx "/api/server/config/[^/]+") "PUT" path method then Some "config.edit" else
  (* Mods & Plugins *)
  if route_is (rx "/api/management/mods/[^/]+") "DELETE" path method then Some "mods.delete" else
  if route_is (rx "/api/management/plugins/[^/]+") "DELETE" path method then Some "plugins.delete" else
  None.

(** [return 'action'] of a fallback predicate, or the final [return null]. *)
Definition dynamic_result (found : option string) : Js.value :=
  match found with
  | Some action => Js.VString action
  | None => Js.VNull
  end.

(** Get the action for a given route and method. *)
Definition getRouteAction (path method : string) : Js.completion Js.value :=
  let* exact := exact_match ROUTE_ACTION_MAP path method in
  match exact with
  | Some action => Js.Normal action
  | None =>
      match pattern_loop ROUTE_ACTION_MAP path method with
      | Some action => Js.Normal action
      | None => Js.Normal (dynamic_result (dynamic_routes path method))
      end
  end.

(** ** types/demo.ts and the collaborators' data *)

(** [config.demoMode] *)
Module demoMode.
Record t : Type := {
  enabled : bool;
  resetIntervalHours : Z;
  simulatedActions : list string;
}.
End demoMode.

(** The payload [verifyToken] returns for a valid token. *)
Module TokenPayload.
Record t : Type := { username : string }.
End TokenPayload.

(** Extended authenticated request with demo flag: the members of the
    request the middleware reads or writes. *)
Module Req.
Record t : Type := {
  user : option string;
  isDemo : option bool;
  path : string;
  method : string;
  authorization : option string;   (* req.headers.authorization *)
}.
End Req.

(** Demo user session info. *)
Record DemoSession : Type := {
  username : string;
  createdAt : Z;
  expiresAt : Z;
  sessionId : string;
}.

(** Demo reset state. *)
Record DemoResetState : Type := {
  lastReset : option Z;
  nextReset : option Z;
  resetIntervalHours : Z;
}.

(** Simulated action response. *)
Record SimulatedResponse : Type := {
  success : bool;
  message : Js.value;
  simulated : bool;
}.

(** Demo login response. *)
Module DemoLoginResponse.
Record t : Type := {
  access_token : string;
  refresh_token : string;
  token_type : string;
  role : string;
  permissions : list string;
  isDemo : bool;
  expiresAt : string;
}.
End DemoLoginResponse.

(** The module-level state of services/demo.ts: the session map, the reset
    state, and the periods (in milliseconds) of the running timers that
    [setInterval] armed, each of which runs [performDemoReset] when it
    fires. *)
Record ServiceState : Type := {
  demoSessions : gmap string DemoSession;
  resetState : DemoResetState;
  intervals : list Z;
}.

(** What the middleware does to its continuation and to the response. *)
Inductive effect : Type :=
| CallNext                           (* next() *)
| ResJson (body : SimulatedResponse) (* res.json(body) *).

(** ** services/demo.ts *)

Definition DEMO_USERNAME : string := "__demo__".
Definition DEMO_ROLE_ID : string := "demo".

(** Demo permissions - read-only access to everything. *)
Definition DEMO_PERMISSIONS : list string :=
  [ "dashboard.view"; "dashboard.stats";
    "server.view_status"; "server.start"; "server.stop"; "server.restart";
    "server.quick_settings";
    "console.view"; "console.execute";
    "performance.view";
    "players.view"; "players.edit"; "players.kick"; "players.ban";
    "players.unban"; "players.whitelist"; "players.op"; "players.permissions";
    "players.teleport"; "players.kill"; "players.respawn"; "players.gamemode";
    "players.give"; "players.heal"; "players.effects";
    "players.clear_inventory"; "players.message";
    "chat.view"; "chat.send";
    "backups.view"; "backups.create"; "backups.restore"; "backups.delete";
    "backups.download";
    "scheduler.view"; "scheduler.edit";
    "worlds.view"; "worlds.manage";
    "mods.view"; "mods.install"; "mods.delete"; "mods.config"; "mods.toggle";
    "plugins.view"; "plugins.install"; "plugins.delete"; "plugins.config";
    "plugins.toggle";
    "config.view"; "config.edit";
    "assets.view"; "assets.manage";
    "users.view"; "roles.view"; "activity.view"; "settings.view" ].

(** The message table of [createSimulatedResponse]. *)
Definition messages : list (string * string) :=
  [ ("server.start", "Server wird gestartet... (Demo)");
    ("server.stop", "Server wird gestoppt... (Demo)");
    ("server.restart", "Server wird neugestartet... (Demo)");
    ("console.execute", "Befehl ausgeführt (Demo)");
    ("players.kick", "Spieler wurde gekickt (Demo)");
    ("players.ban", "Spieler wurde gebannt (Demo)");
    ("players.unban", "Spieler wurde entbannt (Demo)");
    ("players.whitelist", "Whitelist aktualisiert (Demo)");
    ("players.op", "Operator-Status geändert (Demo)");
    ("players.permissions", "Berechtigungen aktualisiert (Demo)");
    ("players.teleport", "Spieler wurde teleportiert (Demo)");
    ("players.kill", "Spieler wurde getötet (Demo)");
    ("players.respawn", "Spieler wird respawnt (Demo)");
    ("players.heal", "Spieler wurde geheilt (Demo)");
    ("players.gamemode", "Spielmodus geändert (Demo)");
    ("players.give", "Item gegeben (Demo)");
    ("players.effects", "Effekt angewendet (Demo)");
    ("players.clear_inventory", "Inventar geleert (Demo)");
    ("players.message", "Nachricht gesendet (Demo)");
    ("players.edit", "Spielerdaten aktualisiert (Demo)");
    ("backups.create", "Backup wird erstellt... (Demo)");
    ("backups.restore", "Backup wird wiederhergestellt... (Demo)");
    ("backups.delete", "Backup gelöscht (Demo)");
    ("scheduler.edit", "Zeitplan aktualisiert (Demo)");
    ("worlds.manage", "Welt-Einstellungen gespeichert (Demo)");
    ("mods.install", "Mod installiert (Demo)");
    ("mods.delete", "Mod gelöscht (Demo)");
    ("mods.config", "Mod-Konfiguration gespeichert (Demo)");
    ("mods.toggle", "Mod Status geändert (Demo)");
    ("plugins.install", "Plugin installiert (Demo)");
    ("plugins.delete", "Plugin gelöscht (Demo)");
    ("plugins.config", "Plugin-Konfiguration gespeichert (Demo)");
    ("plugins.toggle", "Plugin Status geändert (Demo)");
    ("config.edit", "Konfiguration gespeichert (Demo)");
    ("assets.manage", "Assets aktualisiert (Demo)");
    ("users.create", "Benutzer erstellt (Demo)");
    ("users.edit", "Benutzer aktualisiert (Demo)");
    ("users.delete", "Benutzer gelöscht (Demo)");
    ("roles.manage", "Rolle aktualisiert (Demo)");
    ("settings.edit", "Einstellungen gespeichert (Demo)");
    ("hytale_auth.manage", "Authentifizierung aktualisiert (Demo)");
    ("chat.send", "Nachricht gesendet (Demo)") ].

Definition fallback_message : string := "Aktion ausgeführt (Demo)".

(** Generate simulated success response. *)
Definition createSimulatedResponse (action : string) (customMessage : option string)
  : SimulatedResponse :=
  {| success := true;
     message :=
       Js.or_value
         (Js.or_value (Js.of_option customMessage) (Js.get messages action))
         (Js.VString fallback_message);
     simulated := true |}.

Definition hours_to_ms (h : Z) : Z := h * 60 * 60 * 1000.

(** The time to live of a demo session: 24 hours. *)
Definition SESSION_TTL_MS : Z := 24 * 60 * 60 * 1000.

(** Generate a unique session ID: [clock] is the reading of [Date.now()] and
    [rnd] the text drawn from [Math.random()]. *)
Definition generateSessionId (clock : Z) (rnd : string) : string :=
  "demo_" +:+ pretty clock +:+ "_" +:+ rnd.

(** One turn of the clean-up loop of [getActiveDemoSessionCount]. *)
Definition sweep_step (now : Z) (sessions : gmap string DemoSession)
    (entry : string * DemoSession) : gmap string DemoSession :=
  if expiresAt entry.2 <? now then delete entry.1 sessions else sessions.

(** Get active demo session count (for stats): clean up expired sessions
    first, then return the size of the map.  [now] is the reading of the
    clock. *)
Definition getActiveDemoSessionCount (now : Z) (st : ServiceState) : nat * ServiceState :=
  let swept :=
    foldl (sweep_step now) (demoSessions st) (map_to_list (demoSessions st)) in
  (size swept,
   {| demoSessions := swept; resetState := resetState st; intervals := intervals st |}).

Section Service.

Variable config : demoMode.t.
Variable createAccessToken : string -> string.
Variable createRefreshToken : string -> string.
Variable toISOString : Z -> string.

(** The state the module starts with. *)
Definition initial_state : ServiceState :=
  {| demoSessions := ∅;
     resetState :=
       {| lastReset := None; nextReset := None;
          resetIntervalHours := demoMode.resetIntervalHours config |};
     intervals := [] |}.

(** Check if demo mode is enabled. *)
Definition isDemoModeEnabled : bool := demoMode.enabled config.

(** Check if a user is a demo user. *)
Definition isDemoUser (username : option string) : bool :=
  Js.strict_eq username (Some DEMO_USERNAME).

(** Check if an action should be simulated for demo users. *)
Definition shouldSimulateAction (action : string) : bool :=
  Js.includes (demoMode.simulatedActions config) action.

(** Get demo permissions. *)
Definition getDemoPermissions : list string := DEMO_PERMISSIONS.

(** Create a demo login session.  [clock] and [rnd] feed
    [generateSessionId]; [now] is the reading of [new Date()]. *)
Definition createDemoLogin (clock : Z) (rnd : string) (now : Z) (st : ServiceState)
  : DemoLoginResponse.t * ServiceState :=
  let sessionId := generateSessionId clock rnd in
  let expiresAt := now + SESSION_TTL_MS in
  let session :=
    {| username := DEMO_USERNAME; createdAt := now;
       expiresAt := expiresAt; sessionId := sessionId |} in
  let st' :=
    {| demoSessions := <[sessionId := session]> (demoSessions st);
       resetState := resetState st; intervals := intervals st |} in
  let accessToken := createAccessToken DEMO_USERNAME in
  let refreshToken := createRefreshToken DEMO_USERNAME in
  ({| DemoLoginResponse.access_token := accessToken;
      DemoLoginResponse.refresh_token := refreshToken;
      DemoLoginResponse.token_type := "bearer";
      DemoLoginResponse.role := DEMO_ROLE_ID;
      DemoLoginResponse.permissions := DEMO_PERMISSIONS;
      DemoLoginResponse.isDemo := true;
      DemoLoginResponse.expiresAt := toISOString expiresAt |}, st').

(** Get demo reset state. *)
Definition getResetState (st : ServiceState) : DemoResetState := resetState st.

(** The two assignments to [resetState] that both [initializeDemoReset]
    and [performDemoReset] make. *)
Definition stamp_reset (now : Z) (rs : DemoResetState) : DemoResetState :=
  {| lastReset := Some now;
     nextReset := Some (now + hours_to_ms (demoMode.resetIntervalHours config));
     resetIntervalHours := resetIntervalHours rs |}.

(** Initialize demo mode auto-reset timer: [setInterval] arms a timer whose
    period is the delay it is given, brought into the range of a timer. *)
Definition initializeDemoReset (now : Z) (st : ServiceState) : ServiceState :=
  if negb (demoMode.enabled config) then st
  else
    {| demoSessions := demoSessions st;
       resetState := stamp_reset now (resetState st);
       intervals :=
         intervals st ++
         [Js.timer_delay (hours_to_ms (demoMode.resetIntervalHours config))] |}.

(** Perform demo reset - clear all demo sessions. *)
Definition performDemoReset (now : Z) (st : ServiceState) : ServiceState :=
  {| demoSessions := ∅;
     resetState := stamp_reset now (resetState st);
     intervals := intervals st |}.

End Service.

(** The ways the module state changes while the process runs: the
    exported operations, and a firing of a timer that
    [initializeDemoReset] armed. *)
Inductive service_step (config : demoMode.t) : ServiceState -> ServiceState -> Prop :=
| step_initialize now st :
    service_step config st (initializeDemoReset config now st)
| step_reset now st :
    service_step config st (performDemoReset config now st)
| step_timer now period st :
    In period (intervals st) ->
    service_step config st (performDemoReset config now st)
| step_login createAccessToken createRefreshToken toISOString clock rnd now st :
    service_step config st
      (createDemoLogin createAccessToken createRefreshToken toISOString
         clock rnd now st).2
| step_count now st :
    service_step config st (getActiveDemoSessionCount now st).2.

Inductive reachable (config : demoMode.t) : ServiceState -> Prop :=
| reachable_initial : reachable config (initial_state config)
| reachable_step st st' :
    reachable config st -> service_step config st st' -> reachable config st'.

(** ** middleware/demo.ts: identity resolver and interception middleware *)

Section Middleware.

Variable config : demoMode.t.
Variable verifyToken : string -> string -> option TokenPayload.t.

(** Extract username from token without blocking.
    Returns null if no valid token. *)
Definition extractUserFromToken (authHeader : option string)
  : Js.completion (option string) :=
  let* reject :=
    (if negb (Js.truthy authHeader) then Js.Normal true
     else let* starts := Js.startsWith authHeader "Bearer " in
          Js.Normal (negb starts)) in
  if reject : bool then Js.Normal None
  else
    let* token := Js.substring authHeader 7 in
    let result := verifyToken token "access" in
    Js.Normal (Js.or (TokenPayload.username <$> result) None).

(** [req.user || extractUserFromToken(req.headers.authorization) || undefined] *)
Definition resolve_username (req : Req.t) : Js.completion (option string) :=
  if Js.truthy (Req.user req) then Js.Normal (Req.user req)
  else
    let* extracted := extractUserFromToken (Req.authorization req) in
    Js.Normal (Js.or extracted None).

(** [shouldSimulateAction(action)] on whatever the resolver returned: the
    configured actions are strings, and [includes] finds no other value
    among them. *)
Definition simulates (action : Js.value) : bool :=
  match action with
  | Js.VString a => shouldSimulateAction config a
  | _ => false
  end.

(** Mark request as demo. *)
Definition mark_demo (username : option string) (req : Req.t) : Req.t :=
  {| Req.user := username; Req.isDemo := Some true;
     Req.path := Req.path req; Req.method := Req.method req;
     Req.authorization := Req.authorization req |}.

(** Demo middleware - intercepts requests from demo users for simulated
    actions.  The result is the request as the middleware leaves it and
    what was done to [next] and [res], in order. *)
Definition demoMiddleware (req : Req.t) : Js.completion (Req.t * list effect) :=
  (* Skip if demo mode is not enabled *)
  if negb (isDemoModeEnabled config) then Js.Normal (req, [CallNext])
  else
    (* Extract user from token (don't block if no token) *)
    let* username := resolve_username req in
    (* Skip if not a demo user *)
    if negb (isDemoUser username) then Js.Normal (req, [CallNext])
    else
      let req := mark_demo username req in
      (* Get the action for this route *)
      let* action := getRouteAction (Req.path req) (Req.method req) in
      (* If no action mapped or action shouldn't be simulated, continue *)
      if negb (Js.truthy_value action) || negb (simulates action)
      then Js.Normal (req, [CallNext])
      else
        match action with
        | Js.VString a =>
            (* Return simulated response *)
            let response := createSimulatedResponse a None in
            Js.Normal (req, [ResJson response])
        | _ => Js.Normal (req, [CallNext])  (* only a string is simulated *)
        end.

(** Check if a request is from a demo user. *)
Definition checkDemoUser (req : Req.t) : bool :=
  isDemoModeEnabled config && isDemoUser (Req.user req).

End Middleware.

(** ** The specification's view of the registry and of the stores

    The definitions of this part follow the words of the specification, or
    name the sets of inputs the theorems speak about; the theorems compare
    them with the code above. *)

(** The resolver with the pattern loop removed: the exact lookup followed by
    the hard-coded predicates. *)
Definition getRouteAction_without_loop (path method : string) : Js.completion Js.value :=
  let* exact := exact_match ROUTE_ACTION_MAP path method in
  match exact with
  | Some action => Js.Normal action
  | None => Js.Normal (dynamic_result (dynamic_routes path method))
  end.

(** The registry read as a table of declared entries only: the three stages
    of the resolver with every property read confined to the own
    properties of the object literals.  The resolver agrees with it
    wherever neither the path nor the method is the name of a member of
    Object.prototype. *)
Definition exact_match_own (table : list (string * list (string * string)))
    (path method : string) : option string :=
  match Js.own table path with
  | Some routeMap =>
      if Js.truthy (Js.own routeMap method) then Js.own routeMap method else None
  | None => None
  end.

Fixpoint pattern_loop_own (entries : list (string * list (string * string)))
    (path method : string) : option string :=
  match entries with
  | [] => None
  | (routePattern, methodMap) :: rest =>
      let regexPattern := Re.replace_params routePattern in
      let regex := Re.anchored regexPattern in
      if Re.test regex path && Js.truthy (Js.own methodMap method)
      then Js.own methodMap method
      else pattern_loop_own rest path method
  end.

Definition getRouteAction_own (path method : string) : option string :=
  match exact_match_own ROUTE_ACTION_MAP path method with
  | Some action => Some action
  | None =>
      match pattern_loop_own ROUTE_ACTION_MAP path method with
      | Some action => Some action
      | None => dynamic_routes path method
      end
  end.

(** A name that no object literal inherits a member under. *)
Definition plain_name (k : string) : Prop := Js.inherited k = None.

(** What the middleware does with the value the resolver returned. *)
Definition decision (config : demoMode.t) (action : Js.value) : list effect :=
  match action with
  | Js.VString a =>
      if shouldSimulateAction config a
      then [ResJson (createSimulatedResponse a None)]
      else [CallNext]
  | _ => [CallNext]
  end.


(** A route rule: (path template, method, action identifier), the template
    kept as the regular expression it is matched with. *)
Record route_rule : Type := {
  rule_regex : Re.regex;
  rule_method : string;
  rule_action : string;
}.

Definition rule (body m a : string) : route_rule :=
  {| rule_regex := rx body; rule_method := m; rule_action := a |}.



(** The rules the pattern loop declares: each route of the table, its
    named-parameter segments turned into single-segment wildcards. *)
Definition table_rules (table : list (string * list (string * string)))
  : list route_rule :=
  flat_map
    (fun e => List.map (fun ma => rule (Re.replace_params e.1) ma.1 ma.2) e.2)
    table.

(** The rules of the fallback predicates, in declaration order. *)
Definition dynamic_rules : list route_rule :=
  [ rule "/api/players/[^/]+/kick" "POST" "players.kick";
    rule "/api/players/[^/]+/ban" "POST" "players.ban";
    rule "/api/players/[^/]+/ban" "DELETE" "players.unban";
    rule "/api/players/[^/]+/teleport" "POST" "players.teleport";
    rule "/api/players/[^/]+/teleport/death" "POST" "players.teleport";
    rule "/api/players/[^/]+/kill" "POST" "players.kill";
    rule "/api/players/[^/]+/heal" "POST" "players.heal";
    rule "/api/players/[^/]+/gamemode" "POST" "players.gamemode";
    rule "/api/players/[^/]+/give" "POST" "players.give";
    rule "/api/players/[^/]+/effect" "POST" "players.effects";
    rule "/api/players/[^/]+/inventory/clear" "POST" "players.clear_inventory";
    rule "/api/players/[^/]+/message" "POST" "players.message";
    rule "/api/players/[^/]+/whitelist" "POST" "players.whitelist";
    rule "/api/players/[^/]+/whitelist" "DELETE" "players.whitelist";
    rule "/api/players/[^/]+/op" "POST" "players.op";
    rule "/api/players/[^/]+/op" "DELETE" "players.op";
    rule "/api/players/[^/]+/respawn" "POST" "players.respawn";
    rule "/api/players/[^/]+/deaths" "POST" "players.edit";
    rule "/api/auth/users/[^/]+" "PUT" "users.edit";
    rule "/api/auth/users/[^/]+" "DELETE" "users.delete";
    rule "/api/roles/[^/]+" "PUT" "roles.manage";
    rule "/api/roles/[^/]+" "DELETE" "roles.manage";
    rule "/api/backups/[^/]+" "DELETE" "backups.delete";
    rule "/api/backups/[^/]+/restore" "POST" "backups.restore";
    rule "/api/scheduler/tasks/[^/]+" "PUT" "scheduler.edit";
    rule "/api/scheduler/tasks/[^/]+" "DELETE" "scheduler.edit";
    rule "/api/scheduler/quick-commands/[^/]+" "PUT" "scheduler.edit";
    rule "/api/scheduler/quick-commands/[^/]+" "DELETE" "scheduler.edit";
    rule "/api/scheduler/quick-commands/[^/]+/execute" "POST" "scheduler.edit";
    rule "/api/management/whitelist/[^/]+" "DELETE" "players.whitelist";
    rule "/api/management/bans/[^/]+" "DELETE" "players.unban";
    rule "/api/management/permissions/users/[^/]+" "DELETE" "players.permissions";
    rule "/api/management/permissions/groups/[^/]+" "DELETE" "players.permissions";
    rule "/api/server/config/[^/]+" "PUT" "config.edit";
    rule "/api/management/mods/[^/]+" "DELETE" "mods.delete";
    rule "/api/management/plugins/[^/]+" "DELETE" "plugins.delete" ].

(** All parameterized/pattern rules, in declaration order. *)
Definition pattern_rules : list route_rule :=
  table_rules ROUTE_ACTION_MAP ++ dynamic_rules.

Definition rule_matches (path method : string) (r : route_rule) : bool :=
  Re.test (rule_regex r) path && String.eqb method (rule_method r).

Definition specificity (r : route_rule) : nat := Re.wildcards (rule_regex r).

(** Among the given rules, the one with the fewest wildcard segments; among
    equally specific ones, the first. *)
Fixpoint most_specific (rules : list route_rule) : option route_rule :=
  match rules with
  | [] => None
  | r :: rest =>
      match most_specific rest with
      | Some r' => if (specificity r <=? specificity r')%nat then Some r else Some r'
      | None => Some r
      end
  end.



(** A table whose keys are pairwise different and whose actions are
    non-empty strings. *)
Definition distinct_keys (table : list (string * list (string * string))) : Prop :=
  NoDup (List.map fst table).

Definition actions_truthy (table : list (string * list (string * string))) : Prop :=
  Forall (fun e => Forall (fun ma => Js.truthy (Some ma.2) = true) e.2) table.

Definition keys_plain (table : list (string * list (string * string))) : Prop :=
  Forall (fun e => Re.plain e.1 = true) table.

(** A session is active at [now] while its expiry is not in the past: the
    sessions the clean-up loop keeps. *)
Definition active (now : Z) (entry : string * DemoSession) : Prop :=
  now <= expiresAt entry.2.

(** The specification's words: a session is "active" iff [now < expiresAt]. *)
Definition active_strict (now : Z) (entry : string * DemoSession) : Prop :=
  now < expiresAt entry.2.

#[global] Instance active_dec now entry : Decision (active now entry).
Proof. unfold active. apply _. Defined.

#[global] Instance active_strict_dec now entry : Decision (active_strict now entry).
Proof. unfold active_strict. apply _. Defined.

(** The reset-state invariant: [nextReset = lastReset + interval], the
    interval converted to milliseconds. *)
Definition reset_invariant (rs : DemoResetState) : Prop :=
  exists last : Z,
    lastReset rs = Some last /\
    nextReset rs = Some (last + hours_to_ms (resetIntervalHours rs)).

(** ** Sample data *)

Definition sample_config : demoMode.t :=
  {| demoMode.enabled := true;
     demoMode.resetIntervalHours := 24;
     demoMode.simulatedActions := ["server.start"; "backups.create"] |}.

(** Demo mode switched off, the list of simulated actions left in place. *)
Definition disabled_config : demoMode.t :=
  {| demoMode.enabled := false;
     demoMode.resetIntervalHours := 24;
     demoMode.simulatedActions := ["server.start"; "backups.create"] |}.

Definition sample_verifyToken (token kind : string) : option TokenPayload.t :=
  if String.eqb token "demo-token" && String.eqb kind "access"
  then Some {| TokenPayload.username := DEMO_USERNAME |}
  else None.

Definition sample_request : Req.t :=
  {| Req.user := None; Req.isDemo := None;
     Req.path := "/api/backups"; Req.method := "POST";
     Req.authorization := Some "Bearer demo-token" |}.

Definition sample_token (user : string) : string := "token-for-" +:+ user.
Definition sample_iso (t : Z) : string := pretty t.

(** The state after one demo login at time 0 in a fresh process. *)
Definition one_login_state : ServiceState :=
  (createDemoLogin sample_token sample_token sample_iso 0 "k3j9x2abc" 0
     (initial_state sample_config)).2.

(** ** Path templates

    The regular expression of every rule reads as a path template: a list
    of segments, each a literal text or a wildcard, every segment preceded
    by the separator. *)

Definition template : Type := list (option string).

Definition render_segment (seg : option string) : Re.regex :=
  Re.Chr "/" :: match seg with
                | Some text => Re.literal text
                | None => [Re.Seg]
                end.

Definition render (t : template) : Re.regex := flat_map render_segment t.

(** Reading the template off a regular expression, from its end: [st.1] is
    the segment being read, [st.2] the segments read. *)
Definition template_step (a : Re.atom) (st : option string * template)
  : option string * template :=
  match a with
  | Re.Seg => (None, st.2)
  | Re.Chr c =>
      if Re.is_slash c then (Some "", st.1 :: st.2)
      else (String c <$> st.1, st.2)
  end.

Definition template_of (r : Re.regex) : template :=
  (foldr template_step (Some "", []) r).2.

(** The literal segments of a template contain no separator. *)
Definition template_wf (t : template) : Prop :=
  Forall (fun seg => match seg with
                     | Some text => Re.no_slash text = true
                     | None => True
                     end) t.

(** Two templates can accept a common path only if they have the same
    number of segments and agree wherever both are literal. *)
Fixpoint compatible (t1 t2 : template) : bool :=
  match t1, t2 with
  | [], [] => true
  | seg1 :: t1', seg2 :: t2' =>
      match seg1, seg2 with
      | Some a, Some b => String.eqb a b
      | _, _ => true
      end && compatible t1' t2'
  | _, _ => false
  end.

(** The path made of the given segments. *)
Fixpoint join (segments : list string) : string :=
  match segments with
  | [] => ""
  | seg :: rest => "/" +:+ seg +:+ join rest
  end.

(** A path segment fits a template segment. *)
Definition segment_fits (seg : option string) (x : string) : Prop :=
  match seg with
  | Some text => x = text
  | None => x <> "" /\ Re.no_slash x = true
  end.

#[global] Instance template_wf_dec (t : template) : Decision (template_wf t).
Proof. unfold template_wf. apply Forall_dec. intros [text|]; apply _. Defined.

#[global] Instance atom_eq_dec : EqDecision Re.atom.
Proof. solve_decision. Defined.

#[global] Instance route_rule_eq_dec : EqDecision route_rule.
Proof. solve_decision. Defined.

(** ** services/unifiedUpdates.ts: version comparison

    The two helpers work on the characters of a version string, so here a
    string is the list of its UTF-16 code units. *)

Module Versions.

Definition code_units : Type := list N.

(** The code units [String.prototype.trim] removes: WhiteSpace and
    LineTerminator of the language specification. *)
Definition is_whitespace (u : N) : bool :=
  existsb (N.eqb u)
    [0x09; 0x0A; 0x0B; 0x0C; 0x0D; 0x20; 0xA0; 0x1680;
     0x2000; 0x2001; 0x2002; 0x2003; 0x2004; 0x2005; 0x2006; 0x2007;
     0x2008; 0x2009; 0x200A; 0x2028; 0x2029; 0x202F; 0x205F; 0x3000;
     0xFEFF]%N.

Fixpoint trimStart (s : code_units) : code_units :=
  match s with
  | [] => []
  | u :: rest => if is_whitespace u then trimStart rest else s
  end.

Fixpoint trimEnd (s : code_units) : code_units :=
  match s with
  | [] => []
  | u :: rest =>
      match trimEnd rest with
      | [] => if is_whitespace u then [] else [u]
      | kept => u :: kept
      end
  end.

(** [s.trim()] *)
Definition trim (s : code_units) : code_units := trimEnd (trimStart s).

(** 'v' and 'V', the code units the expression [/^v/i] accepts. *)
Definition is_v (u : N) : bool := N.eqb u 0x76 || N.eqb u 0x56.

(** [s.replace(/^v/i, '')] *)
Definition strip_v (s : code_units) : code_units :=
  match s with
  | u :: rest => if is_v u then rest else s
  | [] => []
  end.

(** Normalize version string for comparison (remove 'v' prefix and trim). *)
Definition normalizeVersion (version : code_units) : code_units :=
  trim (strip_v version).

(** Compare two version strings. Returns true if they are semantically
    equal. *)
Definition versionsAreEqual (v1 v2 : code_units) : bool :=
  bool_decide (normalizeVersion v1 = normalizeVersion v2).

Definition starts_with_v (s : code_units) : bool :=
  match s with
  | u :: _ => is_v u
  | [] => false
  end.

End Versions.

(** The characters of a session id before its second separator are free of
    the separator. *)
Definition no_underscore (s : string) : bool :=
  Re.all_chars (fun c => negb (Ascii.eqb c "_")) s.

(** * Properties *)

(** Closed decidable facts about the tables of the source are settled by
    evaluation. *)
Ltac by_evaluation := apply (bool_decide_unpack _); vm_compute; reflexivity.

Create HintDb registry.

(** ** Regular expressions *)

Module ReFacts.
Import Re.

Lemma test_nil s : test [] s = true <-> s = "".
Proof. destruct s; simpl; split; congruence. Qed.

Lemma test_chr c r c' s :
  test (Chr c :: r) (String c' s) = Ascii.eqb c c' && test r s.
Proof. reflexivity. Qed.

(** The unfolding of the wildcard: it takes one character other than '/',
    and then either ends or goes on. *)
Lemma test_seg r c s :
  test (Seg :: r) (String c s) = negb (is_slash c) && (test r s || test (Seg :: r) s).
Proof. reflexivity. Qed.

Lemma test_seg_empty r : test (Seg :: r) "" = false.
Proof. reflexivity. Qed.

(** A literal expression accepts its own text and nothing else. *)
Lemma test_literal k s : test (literal k) s = true <-> s = k.
Proof.
  revert s. induction k as [|c k IH]; intros s.
  - apply test_nil.
  - destruct s as [|c' s]; simpl; [split; congruence|].
    rewrite andb_true_iff, IH, Ascii.eqb_eq. split.
    + intros [-> ->]. reflexivity.
    + intros [= -> ->]. split; reflexivity.
Qed.

(** A wildcard accepts any non-empty run of characters other than '/'. *)
Lemma test_seg_app r s t :
  s <> "" -> no_slash s = true -> test r t = true ->
  test (Seg :: r) (s +:+ t) = true.
Proof.
  induction s as [|c s IH]; intros Hne Hns Ht; [congruence|].
  simpl in Hns. apply andb_true_iff in Hns as [Hc Hs].
  change (String c s +:+ t) with (String c (s +:+ t)).
  rewrite test_seg, Hc. cbn [andb].
  destruct s as [|d s'].
  - change ("" +:+ t) with t. rewrite Ht. reflexivity.
  - rewrite IH by (congruence || assumption). apply orb_true_r.
Qed.

(** What a wildcard accepts starts with a non-empty run of characters
    other than '/', followed by what the rest of the expression accepts. *)
Lemma test_seg_inv r s :
  test (Seg :: r) s = true ->
  exists u t, s = u +:+ t /\ u <> "" /\ no_slash u = true /\ test r t = true.
Proof.
  induction s as [|c s IH]; [discriminate|].
  rewrite test_seg, andb_true_iff, orb_true_iff. intros [Hc [Hr|Hs]].
  - exists (String c ""), s. unfold no_slash. cbn [all_chars]. rewrite Hc.
    repeat split; congruence.
  - destruct (IH Hs) as (u & t & -> & _ & Hu & Ht).
    exists (String c u), t. unfold no_slash in *. cbn [all_chars].
    rewrite Hc, Hu. repeat split; congruence.
Qed.

Lemma not_meta_not_bracket c : is_meta c = false -> c <> "["%char.
Proof. intros H ->. discriminate H. Qed.

Lemma plain_cons c k :
  plain (String c k) = true ->
  is_colon c = false /\ c <> "["%char /\ plain k = true.
Proof.
  unfold plain. simpl. rewrite !andb_true_iff, !negb_true_iff.
  intros [[Hc Hm] Hk]. auto using not_meta_not_bracket.
Qed.

(** The parameter substitution leaves a plain key as it is. *)
Lemma replace_params_plain k : plain k = true -> replace_params k = k.
Proof.
  unfold replace_params. induction k as [|c k IH]; [reflexivity|].
  intros (Hc & _ & Hk)%plain_cons. simpl. rewrite Hc. simpl.
  rewrite IH by assumption. reflexivity.
Qed.

(** A plain key reads as the literal expression of its text. *)
Lemma anchored_plain k : plain k = true -> anchored k = literal k.
Proof.
  unfold anchored. induction k as [|c k IH]; [reflexivity|].
  intros (_ & Hb & Hk)%plain_cons.
  cbn [parse_from literal Js.prefix].
  destruct (Ascii.eqb_spec "[" c) as [E|_]; [congruence|]. cbn [andb].
  rewrite IH by assumption. reflexivity.
Qed.

(** The regular expression the pattern loop builds from a plain key
    matches that key only. *)
Lemma test_plain_key k path :
  plain k = true ->
  test (anchored (replace_params k)) path = true <-> path = k.
Proof.
  intros Hk. rewrite replace_params_plain, anchored_plain by assumption.
  apply test_literal.
Qed.

(** A template with one wildcard between two plain texts. *)
Lemma anchored_wildcard p q :
  plain p = true -> plain q = true ->
  anchored (p +:+ "[^/]+" +:+ q) = literal p ++ Seg :: literal q.
Proof.
  intros Hp Hq. unfold anchored. induction p as [|c p IH].
  - change (parse_from 0 ("" +:+ "[^/]+" +:+ q)) with (Seg :: parse_from 0 q).
    cbn [literal app]. f_equal. apply (anchored_plain q Hq).
  - apply plain_cons in Hp as (_ & Hb & Hp).
    change (String c p +:+ "[^/]+" +:+ q) with (String c (p +:+ "[^/]+" +:+ q)).
    cbn [parse_from literal Js.prefix app].
    destruct (Ascii.eqb_spec "[" c) as [E|_]; [congruence|]. cbn [andb].
    rewrite (IH Hp). reflexivity.
Qed.

Lemma test_literal_app p r s : test (literal p ++ r) (p +:+ s) = test r s.
Proof.
  induction p as [|c p IH]; [reflexivity|].
  change (String c p +:+ s) with (String c (p +:+ s)).
  cbn [literal app]. rewrite test_chr, Ascii.eqb_refl, IH. reflexivity.
Qed.

(** Such a template accepts every path that puts a non-empty segment in
    the place of the wildcard. *)
Lemma test_wildcard p q s :
  plain p = true -> plain q = true ->
  s <> "" -> no_slash s = true ->
  test (anchored (p +:+ "[^/]+" +:+ q)) (p +:+ s +:+ q) = true.
Proof.
  intros Hp Hq Hne Hns.
  rewrite anchored_wildcard, test_literal_app by assumption.
  apply test_seg_app; [assumption..|]. apply test_literal. reflexivity.
Qed.

End ReFacts.

(** ** Object literals and lists *)

Section Lookup.
Context {V : Type}.
Implicit Types (o : list (string * V)) (k : string).

Lemma own_key_In o k v : Js.own o k = Some v -> In k (List.map fst o).
Proof.
  induction o as [|[k' v'] o IH]; simpl; [discriminate|].
  destruct (String.eqb_spec k' k); auto.
Qed.

Lemma own_skip o k k' v' : k' <> k -> Js.own ((k', v') :: o) k = Js.own o k.
Proof. intros H. simpl. destruct (String.eqb_spec k' k); congruence. Qed.

Lemma own_here o k v : Js.own ((k, v) :: o) k = Some v.
Proof. simpl. rewrite String.eqb_refl. reflexivity. Qed.

End Lookup.

(** A method map whose actions are non-empty strings yields truthy values. *)
Lemma own_truthy (methodMap : list (string * string)) method action :
  Forall (fun ma => Js.truthy (Some ma.2) = true) methodMap ->
  Js.own methodMap method = Some action ->
  Js.truthy (Some action) = true.
Proof.
  induction methodMap as [|[m a] methodMap IH]; intros Hall Hget; [discriminate|].
  apply Forall_cons in Hall as [Ha Hall]. simpl in Hget.
  destruct (String.eqb m method); [injection Hget as <-; exact Ha | auto].
Qed.


(** ** Reads through the prototype chain *)

(** Under a name that is no member of Object.prototype an object literal
    has its own properties only. *)
Lemma get_plain (o : list (string * string)) k :
  plain_name k -> Js.get o k = Js.of_option (Js.own o k).
Proof.
  unfold plain_name, Js.get. intros ->. destruct (Js.own o k); reflexivity.
Qed.

Lemma truthy_of_option o : Js.truthy_value (Js.of_option o) = Js.truthy o.
Proof. destruct o as [[|c s]|]; reflexivity. Qed.

(** A string read from an object literal is an own property of it. *)
Lemma get_string (o : list (string * string)) k s :
  Js.get o k = Js.VString s -> Js.own o k = Some s.
Proof.
  unfold Js.get. destruct (Js.own o k); [congruence|].
  destruct (Js.inherited k); discriminate.
Qed.

Lemma get_own (o : list (string * string)) k s :
  Js.own o k = Some s -> Js.get o k = Js.VString s.
Proof. unfold Js.get. intros ->. reflexivity. Qed.

Lemma get_falsy (o : list (string * string)) k :
  Js.truthy_value (Js.get o k) = false -> Js.truthy (Js.own o k) = false.
Proof.
  unfold Js.get. destruct (Js.own o k) as [s|]; [|reflexivity].
  intros Ht. exact Ht.
Qed.

Lemma or_value_truthy a b :
  Js.truthy_value b = true -> Js.truthy_value (Js.or_value a b) = true.
Proof.
  unfold Js.or_value. destruct (Js.truthy_value a) eqn:Ha; [rewrite Ha|]; auto.
Qed.

(** No member of Object.prototype has a name that starts with '/'. *)
Lemma prefix_slash_plain path : Js.prefix "/" path = true -> plain_name path.
Proof.
  destruct path as [|c path]; [discriminate|]. cbn [Js.prefix].
  rewrite andb_true_r. intros <-%Ascii.eqb_eq. reflexivity.
Qed.

Lemma prefix_api_slash path : Js.prefix "/api/" path = true -> Js.prefix "/" path = true.
Proof.
  destruct path as [|c path]; [discriminate|]. cbn [Js.prefix].
  intros [H _]%andb_true_iff. rewrite H. reflexivity.
Qed.




Lemma find_app_first {A B} (f : A -> B) (p : A -> bool) (l1 l2 : list A) :
  f <$> List.find p (l1 ++ l2) =
  match f <$> List.find p l1 with
  | Some b => Some b
  | None => f <$> List.find p l2
  end.
Proof.
  induction l1 as [|a l1 IH]; simpl; [reflexivity|].
  destruct (p a); [reflexivity | exact IH].
Qed.




(** What [most_specific] returns is one of the rules, no rule is more
    specific, and no equally specific rule is declared before it. *)
Lemma most_specific_spec (rules : list route_rule) (r : route_rule) :
  most_specific rules = Some r ->
  exists before after,
    rules = before ++ r :: after /\
    Forall (fun r' => (specificity r < specificity r')%nat) before /\
    Forall (fun r' => (specificity r <= specificity r')%nat) after.
Proof.
  revert r. induction rules as [|r0 rules IH]; intros r; [discriminate|].
  cbn [most_specific].
  destruct (most_specific rules) as [r'|] eqn:Hrest.
  - destruct (IH r' eq_refl) as (before & after & -> & Hb & Ha).
    destruct (Nat.leb_spec (specificity r0) (specificity r')) as [Hle|Hlt];
      intros [= <-].
    + exists [], (before ++ r' :: after). repeat split; [constructor|].
      apply Forall_app. split.
      * eapply List.Forall_impl; [|exact Hb]. intros x Hx. simpl in Hx. lia.
      * constructor; [exact Hle|].
        eapply List.Forall_impl; [|exact Ha]. intros x Hx. simpl in Hx. lia.
    + exists (r0 :: before), after. repeat split; [|exact Ha].
      constructor; [exact Hlt | exact Hb].
  - intros [= <-]. destruct rules as [|r1 rules].
    + exists [], []. repeat split; constructor.
    + cbn [most_specific] in Hrest.
      destruct (most_specific rules) as [r2|];
        [destruct (_ <=? _)%nat|]; discriminate.
Qed.

(** ** The action registry *)

Section RegistryFacts.

Variable table : list (string * list (string * string)).

(** The pattern loop returns nothing the exact lookup has not returned
    before it: the pattern of a plain key matches that key only. *)
Lemma pattern_loop_exact path method action :
  distinct_keys table -> keys_plain table ->
  pattern_loop_own table path method = Some action ->
  exact_match_own table path method = Some action.
Proof.
  unfold distinct_keys, keys_plain, exact_match_own.
  induction table as [|[k mm] rest IH]; intros Hnd Hpl; [discriminate|].
  cbn [List.map fst] in Hnd. apply NoDup_cons in Hnd as [Hk Hnd].
  apply Forall_cons in Hpl as [Hpk Hpl]. cbn [fst] in Hpk.
  cbn [pattern_loop_own].
  destruct (Re.test _ path) eqn:Htest; cbn [andb].
  - apply (ReFacts.test_plain_key k path Hpk) in Htest as ->.
    rewrite own_here. destruct (Js.truthy _); [auto|].
    intros Hloop. specialize (IH Hnd Hpl Hloop).
    destruct (Js.own rest k) as [mm'|] eqn:Hget; [|discriminate].
    exfalso. apply Hk, list_elem_of_In. eauto using own_key_In.
  - intros Hloop. specialize (IH Hnd Hpl Hloop).
    destruct (Js.own rest path) as [mm'|] eqn:Hget; [|discriminate].
    rewrite own_skip, Hget; [exact IH|].
    intros ->. apply Hk, list_elem_of_In. eauto using own_key_In.
Qed.

Lemma pattern_loop_redundant path method :
  distinct_keys table -> keys_plain table ->
  exact_match_own table path method = None ->
  pattern_loop_own table path method = None.
Proof.
  intros Hnd Hpl Hex.
  destruct (pattern_loop_own table path method) as [a|] eqn:Hloop; [|reflexivity].
  apply pattern_loop_exact in Hloop; congruence.
Qed.

(** The same of the resolver as the code runs it: what the pattern loop
    returns is the truthy member that the exact lookup read from the method
    map of the path. *)
Lemma pattern_loop_found path method v :
  distinct_keys table -> keys_plain table ->
  pattern_loop table path method = Some v ->
  exists methodMap,
    Js.own table path = Some methodMap /\
    Js.truthy_value (Js.get methodMap method) = true /\
    v = Js.get methodMap method.
Proof.
  unfold distinct_keys, keys_plain.
  induction table as [|[k mm] rest IH]; intros Hnd Hpl; [discriminate|].
  cbn [List.map fst] in Hnd. apply NoDup_cons in Hnd as [Hk Hnd].
  apply Forall_cons in Hpl as [Hpk Hpl]. cbn [fst] in Hpk.
  cbn [pattern_loop].
  destruct (Re.test _ path) eqn:Htest; cbn [andb].
  - apply (ReFacts.test_plain_key k path Hpk) in Htest as ->.
    rewrite own_here. destruct (Js.truthy_value _) eqn:Ht.
    + intros [= <-]. eauto.
    + intros Hloop. destruct (IH Hnd Hpl Hloop) as (mm' & Hget & _).
      exfalso. apply Hk, list_elem_of_In. eauto using own_key_In.
  - intros Hloop. destruct (IH Hnd Hpl Hloop) as (mm' & Hget & Ht & Hv).
    exists mm'. rewrite own_skip; [auto|].
    intros ->. apply Hk, list_elem_of_In. eauto using own_key_In.
Qed.

Lemma pattern_loop_unreached path method :
  distinct_keys table -> keys_plain table ->
  exact_match table path method = Js.Normal None ->
  pattern_loop table path method = None.
Proof.
  intros Hnd Hpl Hex.
  destruct (pattern_loop table path method) as [v|] eqn:Hloop; [|reflexivity].
  destruct (pattern_loop_found _ _ _ Hnd Hpl Hloop) as (mm & Hget & Ht & _).
  unfold exact_match in Hex. rewrite Hget, Ht in Hex. discriminate.
Qed.

(** Where neither the path nor the method names a member of
    Object.prototype, the two lookups read declared entries only. *)
Lemma exact_match_plain path method :
  plain_name path -> plain_name method ->
  exact_match table path method =
  Js.Normal (Js.VString <$> exact_match_own table path method).
Proof.
  unfold exact_match, exact_match_own. intros Hp Hm.
  destruct (Js.own table path) as [mm|].
  - rewrite (get_plain mm method Hm), truthy_of_option.
    destruct (Js.truthy (Js.own mm method)) eqn:Ht; [|reflexivity].
    destruct (Js.own mm method); [reflexivity | discriminate Ht].
  - rewrite Hp. reflexivity.
Qed.

Lemma pattern_loop_plain path method :
  plain_name method ->
  pattern_loop table path method =
  Js.VString <$> pattern_loop_own table path method.
Proof.
  intros Hm. induction table as [|[k mm] rest IH]; [reflexivity|].
  cbn [pattern_loop pattern_loop_own].
  rewrite (get_plain mm method Hm), truthy_of_option.
  destruct (Re.test _ path && Js.truthy (Js.own mm method)) eqn:Hc; [|exact IH].
  apply andb_true_iff in Hc as [_ Ht].
  destruct (Js.own mm method); [reflexivity | discriminate Ht].
Qed.

(** The exact lookup returns truthy values only. *)
Lemma exact_match_truthy path method v :
  exact_match table path method = Js.Normal (Some v) -> Js.truthy_value v = true.
Proof.
  unfold exact_match. destruct (Js.own table path) as [mm|].
  - destruct (Js.truthy_value (Js.get mm method)) eqn:Ht; [|discriminate].
    intros [= <-]. exact Ht.
  - destruct (Js.inherited path) as [r|]; [|discriminate].
    destruct (Js.member r method) as [found|e]; [|discriminate]. cbn [Js.bind].
    destruct (Js.truthy_value found) eqn:Ht; [|discriminate].
    intros [= <-]. exact Ht.
Qed.

(** With a path that names no member of Object.prototype, the exact lookup
    ends normally, and a string it returns is a declared entry. *)
Lemma exact_match_plain_path path method :
  plain_name path ->
  exists found,
    exact_match table path method = Js.Normal found /\
    (forall a, found = Some (Js.VString a) -> exact_match_own table path method = Some a) /\
    (found = None -> exact_match_own table path method = None).
Proof.
  unfold exact_match, exact_match_own. intros Hp.
  destruct (Js.own table path) as [mm|].
  - eexists. split; [reflexivity|].
    destruct (Js.truthy_value (Js.get mm method)) eqn:Ht.
    + split; [|discriminate]. intros a [= Hget]. rewrite Hget in Ht.
      apply get_string in Hget. rewrite Hget. cbn [Js.truthy_value] in Ht.
      rewrite Ht. reflexivity.
    + split; [discriminate|]. intros _. apply get_falsy in Ht. rewrite Ht.
      reflexivity.
  - rewrite Hp. eexists. split; [reflexivity|]. split; [discriminate | reflexivity].
Qed.



(** The pattern rules of one route. *)
Lemma find_table_route body (mm : list (string * string)) path method :
  rule_action <$>
    List.find (rule_matches path method)
      (List.map (fun ma => rule body ma.1 ma.2) mm) =
  if Re.test (rx body) path then Js.own mm method else None.
Proof.
  unfold rule_matches.
  induction mm as [|[m a] mm IH];
    cbn [List.map List.find fst snd Js.own rule rule_regex rule_method].
  - destruct (Re.test _ path); reflexivity.
  - rewrite (String.eqb_sym method m).
    destruct (Re.test (rx body) path) eqn:Ht; cbn [andb].
    + destruct (String.eqb m method); [reflexivity | exact IH].
    + exact IH.
Qed.

(** The pattern loop returns the action of the first rule of the table
    that matches. *)
Lemma pattern_loop_rules path method :
  actions_truthy table ->
  pattern_loop_own table path method =
  rule_action <$> List.find (rule_matches path method) (table_rules table).
Proof.
  unfold actions_truthy, table_rules.
  induction table as [|[k mm] rest IH]; intros Hact; [reflexivity|].
  apply Forall_cons in Hact as [Hmm Hact]. cbn [snd] in Hmm.
  cbn [flat_map pattern_loop_own fst snd].
  rewrite find_app_first, find_table_route. unfold rx.
  destruct (Re.test _ path); cbn [andb]; [|exact (IH Hact)].
  destruct (Js.own mm method) as [a|] eqn:Hget.
  - rewrite (own_truthy _ _ _ Hmm Hget). reflexivity.
  - cbn [Js.truthy]. exact (IH Hact).
Qed.

End RegistryFacts.

(** The route table of the source is well formed. *)
Lemma ROUTE_ACTION_MAP_distinct_keys : distinct_keys ROUTE_ACTION_MAP.
Proof. by_evaluation. Qed.

Lemma ROUTE_ACTION_MAP_keys_plain : keys_plain ROUTE_ACTION_MAP.
Proof. by_evaluation. Qed.

Lemma ROUTE_ACTION_MAP_actions_truthy : actions_truthy ROUTE_ACTION_MAP.
Proof. by_evaluation. Qed.

(** Every object literal of the source names each of its properties once,
    so that reading the first property of a name reads the property. *)
Lemma ROUTE_ACTION_MAP_distinct_methods :
  Forall (fun e => NoDup (List.map fst e.2)) ROUTE_ACTION_MAP.
Proof. by_evaluation. Qed.

Lemma messages_distinct_keys : NoDup (List.map fst messages).
Proof. by_evaluation. Qed.

#[local] Hint Resolve ROUTE_ACTION_MAP_distinct_keys ROUTE_ACTION_MAP_keys_plain
  ROUTE_ACTION_MAP_actions_truthy : registry.


Lemma find_rule_cons body m a rest path method :
  rule_action <$> List.find (rule_matches path method) (rule body m a :: rest) =
  if route_is (rx body) m path method then Some a
  else rule_action <$> List.find (rule_matches path method) rest.
Proof.
  cbn [List.find].
  change (rule_matches path method (rule body m a))
    with (route_is (rx body) m path method).
  destruct (route_is _ _ _ _); reflexivity.
Qed.

(** The chain of hard-coded predicates returns the action of the first
    fallback rule that matches. *)
Lemma dynamic_routes_rules path method :
  dynamic_routes path method =
  rule_action <$> List.find (rule_matches path method) dynamic_rules.
Proof.
  unfold dynamic_routes, dynamic_rules.
  rewrite !find_rule_cons. reflexivity.
Qed.

Lemma route_is_other_method re m path method :
  String.eqb method m = false -> route_is re m path method = false.
Proof. unfold route_is. intros ->. apply andb_false_r. Qed.

Lemma route_is_same_method re m path :
  Re.test re path = true -> route_is re m path m = true.
Proof. unfold route_is. intros ->. rewrite String.eqb_refl. reflexivity. Qed.

(** No route of the table lies below [/api/players/]. *)
Lemma exact_match_players_sub rest method :
  exact_match_own ROUTE_ACTION_MAP ("/api/players/" +:+ rest) method = None.
Proof. reflexivity. Qed.

Lemma getRouteAction_players_sub rest method :
  getRouteAction_own ("/api/players/" +:+ rest) method =
  dynamic_routes ("/api/players/" +:+ rest) method.
Proof.
  unfold getRouteAction_own. rewrite exact_match_players_sub.
  rewrite pattern_loop_redundant;
    auto using exact_match_players_sub with registry.
Qed.


(** Where neither the path nor the method names a member of
    Object.prototype, the resolver is the resolver over declared entries. *)
Lemma getRouteAction_plain path method :
  plain_name path -> plain_name method ->
  getRouteAction path method =
  Js.Normal (dynamic_result (getRouteAction_own path method)).
Proof.
  intros Hp Hm. unfold getRouteAction, getRouteAction_own.
  rewrite (exact_match_plain _ _ _ Hp Hm), (pattern_loop_plain _ _ _ Hm).
  cbn [Js.bind].
  destruct (exact_match_own ROUTE_ACTION_MAP path method); [reflexivity|].
  destruct (pattern_loop_own ROUTE_ACTION_MAP path method); reflexivity.
Qed.

(** With a path that names no member of Object.prototype the resolver ends
    normally, and a string it returns is what the resolver over declared
    entries returns. *)
Lemma getRouteAction_normal path method :
  plain_name path -> exists v, getRouteAction path method = Js.Normal v.
Proof.
  intros Hp. unfold getRouteAction.
  destruct (exact_match_plain_path ROUTE_ACTION_MAP path method Hp)
    as (found & Hex & _).
  rewrite Hex. cbn [Js.bind]. destruct found as [v|]; [eauto|].
  destruct (pattern_loop ROUTE_ACTION_MAP path method); eauto.
Qed.

Lemma getRouteAction_string path method a :
  plain_name path ->
  getRouteAction path method = Js.Normal (Js.VString a) ->
  getRouteAction_own path method = Some a.
Proof.
  intros Hp. unfold getRouteAction, getRouteAction_own.
  destruct (exact_match_plain_path ROUTE_ACTION_MAP path method Hp)
    as (found & Hex & Hsome & Hnone).
  rewrite Hex. cbn [Js.bind]. destruct found as [v|].
  - intros [= ->]. rewrite (Hsome a eq_refl). reflexivity.
  - pose proof (Hnone eq_refl) as Hown. rewrite Hown.
    rewrite pattern_loop_unreached by auto with registry.
    rewrite pattern_loop_redundant by auto with registry.
    destruct (dynamic_routes path method); [|discriminate].
    intros [= <-]. reflexivity.
Qed.

(** The resolver never returns the empty string: what it returns is [null]
    or a truthy value. *)
Lemma dynamic_routes_truthy path method action :
  dynamic_routes path method = Some action -> Js.truthy (Some action) = true.
Proof.
  rewrite dynamic_routes_rules.
  destruct (List.find _ dynamic_rules) as [r|] eqn:Hfind; [|discriminate].
  apply List.find_some in Hfind as [Hin _]. intros [= <-].
  revert r Hin. apply List.Forall_forall.
  by_evaluation.
Qed.

Lemma getRouteAction_result path method v :
  getRouteAction path method = Js.Normal v ->
  v = Js.VNull \/ Js.truthy_value v = true.
Proof.
  unfold getRouteAction.
  destruct (exact_match ROUTE_ACTION_MAP path method) as [[w|]|e] eqn:Hex;
    cbn [Js.bind]; [| |discriminate].
  - intros [= <-]. right. exact (exact_match_truthy _ _ _ _ Hex).
  - rewrite pattern_loop_unreached by auto with registry.
    destruct (dynamic_routes path method) as [a|] eqn:Hd; intros [= <-].
    + right. exact (dynamic_routes_truthy _ _ _ Hd).
    + left. reflexivity.
Qed.


(** C10. No key of ROUTE_ACTION_MAP has a named-parameter segment (nor any
    character special in a regular expression), and so the pattern loop of
    getRouteAction is redundant: for every path and method getRouteAction
    returns what the exact lookup followed by the hard-coded predicates
    returns. *)
Theorem getRouteAction_pattern_loop_redundant :
  keys_plain ROUTE_ACTION_MAP /\
  forall path method : string,
    getRouteAction path method = getRouteAction_without_loop path method.
Proof.
  split; [exact ROUTE_ACTION_MAP_keys_plain|].
  intros path method. unfold getRouteAction, getRouteAction_without_loop.
  destruct (exact_match ROUTE_ACTION_MAP path method) as [[v|]|e] eqn:Hex;
    [reflexivity| |reflexivity].
  cbn [Js.bind]. rewrite pattern_loop_unreached; auto with registry.
Qed.



(** C4, as amended. For every non-empty path segment s containing no '/',
    getRouteAction('/api/players/' + s + '/kick', 'POST') is 'players.kick'
    and getRouteAction('/api/players/' + s + '/ban', 'DELETE') is
    'players.unban'. *)
Theorem getRouteAction_player_segment (s : string) :
  s <> "" -> Re.no_slash s = true ->
  getRouteAction ("/api/players/" +:+ s +:+ "/kick") "POST" =
    Js.Normal (Js.VString "players.kick") /\
  getRouteAction ("/api/players/" +:+ s +:+ "/ban") "DELETE" =
    Js.Normal (Js.VString "players.unban").
Proof.
  intros Hne Hns.
  rewrite !getRouteAction_plain by reflexivity.
  rewrite !getRouteAction_players_sub. split.
  - unfold dynamic_routes.
    rewrite (route_is_same_method
               (rx "/api/players/[^/]+/kick") "POST"
               ("/api/players/" +:+ s +:+ "/kick")); [reflexivity|].
    exact (ReFacts.test_wildcard "/api/players/" "/kick" s eq_refl eq_refl Hne Hns).
  - unfold dynamic_routes.
    rewrite !(route_is_other_method _ "POST" _ "DELETE") by reflexivity.
    rewrite (route_is_same_method
               (rx "/api/players/[^/]+/ban") "DELETE"
               ("/api/players/" +:+ s +:+ "/ban")); [reflexivity|].
    exact (ReFacts.test_wildcard "/api/players/" "/ban" s eq_refl eq_refl Hne Hns).
Qed.

(** The segment 'alice'. *)
Lemma getRouteAction_player_segment_alice :
  getRouteAction "/api/players/alice/kick" "POST" =
    Js.Normal (Js.VString "players.kick") /\
  getRouteAction "/api/players/alice/ban" "DELETE" =
    Js.Normal (Js.VString "players.unban").
Proof.
  apply (getRouteAction_player_segment "alice"); [discriminate | reflexivity].
Defined.

(** C4, as stated, fails at the empty segment, which contains no '/': the
    wildcard needs at least one character. *)
Lemma getRouteAction_empty_segment :
  Re.no_slash "" = true /\
  getRouteAction ("/api/players/" +:+ "" +:+ "/kick") "POST" <>
    Js.Normal (Js.VString "players.kick") /\
  getRouteAction ("/api/players/" +:+ "" +:+ "/ban") "DELETE" <>
    Js.Normal (Js.VString "players.unban").
Proof. repeat split; vm_compute; discriminate. Qed.

(** ** The session store *)

(** What the clean-up loop leaves of a key: gone if one of the visited
    entries has that key and is expired, untouched otherwise. *)
Lemma sweep_lookup now (entries : list (string * DemoSession))
    (sessions : gmap string DemoSession) (k : string) :
  foldl (sweep_step now) sessions entries !! k =
  if existsb (fun e => bool_decide (e.1 = k) && (expiresAt e.2 <? now)) entries
  then None else sessions !! k.
Proof.
  revert sessions. induction entries as [|[id s] entries IH]; intros sessions;
    [reflexivity|].
  cbn [foldl existsb fst snd]. rewrite IH. unfold sweep_step. cbn [fst snd].
  destruct (existsb _ entries); [rewrite orb_true_r; reflexivity|].
  rewrite orb_false_r. case_bool_decide as Hk; cbn [andb].
  - subst k. destruct (expiresAt s <? now); [apply lookup_delete_eq | reflexivity].
  - destruct (expiresAt s <? now); [apply lookup_delete_ne, Hk | reflexivity].
Qed.

(** The clean-up loop keeps exactly the active sessions. *)
Lemma sweep_filter now (sessions : gmap string DemoSession) :
  foldl (sweep_step now) sessions (map_to_list sessions) = filter (active now) sessions.
Proof.
  apply map_eq. intros k. rewrite sweep_lookup, map_lookup_filter.
  destruct (sessions !! k) as [s|] eqn:Hk; cbn [mbind option_bind].
  - destruct (existsb _ _) eqn:Hex.
    + apply existsb_exists in Hex as ([k' s'] & Hin & Hb). cbn [fst snd] in Hb.
      apply andb_true_iff in Hb as [Hk' Hexp].
      apply bool_decide_eq_true in Hk' as ->. apply Z.ltb_lt in Hexp.
      apply list_elem_of_In, elem_of_map_to_list in Hin.
      assert (s' = s) as -> by congruence.
      rewrite option_guard_False; [reflexivity|]. unfold active. cbn [snd]. lia.
    + rewrite option_guard_True; [reflexivity|]. unfold active. cbn [snd].
      destruct (Z.le_gt_cases now (expiresAt s)) as [Hle|Hgt]; [exact Hle|].
      exfalso. apply not_true_iff_false in Hex. apply Hex.
      apply existsb_exists. exists (k, s). split.
      * apply list_elem_of_In, elem_of_map_to_list, Hk.
      * cbn [fst snd]. rewrite bool_decide_eq_true_2 by reflexivity.
        apply Z.ltb_lt in Hgt. rewrite Hgt. reflexivity.
  - destruct (existsb _ _); reflexivity.
Qed.

Lemma getActiveDemoSessionCount_filter now st :
  getActiveDemoSessionCount now st =
  (size (filter (active now) (demoSessions st)),
   {| demoSessions := filter (active now) (demoSessions st);
      resetState := resetState st; intervals := intervals st |}).
Proof. unfold getActiveDemoSessionCount. rewrite sweep_filter. reflexivity. Qed.

(** C5, as amended. A session created by createDemoLogin at time T expires
    at T + 24 hours; getActiveDemoSessionCount counts exactly the sessions
    with now <= expiresAt and deletes the others from the store; so the
    session is counted at T and is gone at T + 24h + 1s. *)
Theorem getActiveDemoSessionCount_counts_active
    (config : demoMode.t) (createAccessToken createRefreshToken : string -> string)
    (toISOString : Z -> string) (clock : Z) (rnd : string) (T : Z) (st : ServiceState) :
  let st1 :=
    (createDemoLogin createAccessToken createRefreshToken toISOString
       clock rnd T st).2 in
  let id := generateSessionId clock rnd in
  (exists session,
     demoSessions st1 !! id = Some session /\
     createdAt session = T /\
     expiresAt session = T + 24 * 60 * 60 * 1000) /\
  (forall now st0,
     (getActiveDemoSessionCount now st0).1 =
       size (filter (active now) (demoSessions st0)) /\
     demoSessions (getActiveDemoSessionCount now st0).2 =
       filter (active now) (demoSessions st0)) /\
  (is_Some (demoSessions (getActiveDemoSessionCount T st1).2 !! id) /\
   (1 <= (getActiveDemoSessionCount T st1).1)%nat) /\
  demoSessions (getActiveDemoSessionCount (T + 24 * 60 * 60 * 1000 + 1000) st1).2 !! id
    = None.
Proof.
  intros st1 id.
  assert (demoSessions st1 !! id =
          Some {| username := DEMO_USERNAME; createdAt := T;
                  expiresAt := T + SESSION_TTL_MS; sessionId := id |}) as Hid
    by apply lookup_insert_eq.
  split; [eexists; split; [exact Hid|]; split; reflexivity|].
  split; [intros now st0; rewrite getActiveDemoSessionCount_filter; split; reflexivity|].
  rewrite !getActiveDemoSessionCount_filter. cbn [fst snd demoSessions].
  assert (filter (active T) (demoSessions st1) !! id =
          Some {| username := DEMO_USERNAME; createdAt := T;
                  expiresAt := T + SESSION_TTL_MS; sessionId := id |}) as Hkept.
  { apply map_lookup_filter_Some_2; [exact Hid|].
    unfold active, SESSION_TTL_MS. cbn [snd expiresAt]. lia. }
  split; [split|].
  - rewrite Hkept. eauto.
  - assert (size (filter (active T) (demoSessions st1)) <> 0%nat)
      by (eapply map_size_ne_0_lookup_2; rewrite Hkept; eauto).
    lia.
  - apply map_lookup_filter_None_2. right. intros x Hx.
    rewrite Hid in Hx. injection Hx as <-.
    unfold active, SESSION_TTL_MS. cbn [snd expiresAt]. lia.
Qed.

(** C5, as stated, fails on the boundary: a session created at time 0
    expires at 24h; queried at exactly 24h it is not active in the sense
    [now < expiresAt], and yet it is counted and stays in the store. *)
Lemma getActiveDemoSessionCount_boundary :
  let now := 24 * 60 * 60 * 1000 in
  size (filter (active_strict now) (demoSessions one_login_state)) = 0%nat /\
  (getActiveDemoSessionCount now one_login_state).1 = 1%nat /\
  (getActiveDemoSessionCount now one_login_state).1 <>
    size (filter (active_strict now) (demoSessions one_login_state)).
Proof. vm_compute. repeat split; discriminate. Qed.

(** ** The reset scheduler *)

(** The interval recorded in the reset state is the configured one in
    every state the process reaches. *)
Lemma reachable_interval config st :
  reachable config st ->
  resetIntervalHours (resetState st) = demoMode.resetIntervalHours config.
Proof.
  induction 1 as [|st st' _ IH Hstep]; [reflexivity|].
  destruct Hstep; cbn [snd resetState]; try exact IH.
  unfold initializeDemoReset. destruct (negb _); [exact IH|exact IH].
Qed.

Lemma stamp_reset_invariant config now rs :
  resetIntervalHours rs = demoMode.resetIntervalHours config ->
  reset_invariant (stamp_reset config now rs).
Proof.
  intros Hrs. exists now. unfold stamp_reset. cbn. rewrite Hrs. auto.
Qed.

(** In every reachable state a reset time is either not yet recorded or
    related to the next one by the invariant. *)
Lemma reachable_reset_invariant config st :
  reachable config st ->
  (lastReset (resetState st) = None /\ nextReset (resetState st) = None) \/
  reset_invariant (resetState st).
Proof.
  induction 1 as [|st st' Hst IH Hstep]; [left; split; reflexivity|].
  pose proof (reachable_interval _ _ Hst) as Hrs.
  destruct Hstep; cbn [snd resetState]; try exact IH;
    try (right; apply stamp_reset_invariant, Hrs).
  unfold initializeDemoReset. destruct (negb _); [exact IH|].
  right. apply stamp_reset_invariant, Hrs.
Qed.

(** C6. performDemoReset empties the session store, so that a subsequent
    getActiveDemoSessionCount returns 0, and re-establishes
    nextReset = lastReset + resetIntervalHours (in milliseconds);
    initializeDemoReset establishes the same when demo mode is enabled. *)
Theorem performDemoReset_clears_and_rearms
    (config : demoMode.t) (now : Z) (st : ServiceState) :
  reachable config st ->
  let st' := performDemoReset config now st in
  (demoSessions st' = ∅ /\
   forall later, (getActiveDemoSessionCount later st').1 = 0%nat) /\
  (lastReset (resetState st') = Some now /\
   nextReset (resetState st') =
     Some (now + demoMode.resetIntervalHours config * 60 * 60 * 1000) /\
   reset_invariant (resetState st')) /\
  (demoMode.enabled config = true ->
   let st_init := initializeDemoReset config now st in
   lastReset (resetState st_init) = Some now /\
   nextReset (resetState st_init) =
     Some (now + demoMode.resetIntervalHours config * 60 * 60 * 1000) /\
   reset_invariant (resetState st_init)).
Proof.
  intros Hreach st'. pose proof (reachable_interval _ _ Hreach) as Hrs.
  split; [split; [reflexivity|]|split].
  - intros later. rewrite getActiveDemoSessionCount_filter. cbn [fst].
    subst st'. cbn [performDemoReset demoSessions].
    rewrite map_filter_empty. apply map_size_empty.
  - repeat split. apply stamp_reset_invariant, Hrs.
  - intros Hen st_init. subst st_init. unfold initializeDemoReset.
    rewrite Hen. cbn [negb resetState].
    repeat split. apply stamp_reset_invariant, Hrs.
Qed.

Lemma performDemoReset_clears_and_rearms_witness :
  let st' := performDemoReset sample_config 1000 one_login_state in
  (demoSessions st' = ∅ /\
   forall later, (getActiveDemoSessionCount later st').1 = 0%nat) /\
  (lastReset (resetState st') = Some 1000 /\
   nextReset (resetState st') =
     Some (1000 + demoMode.resetIntervalHours sample_config * 60 * 60 * 1000) /\
   reset_invariant (resetState st')) /\
  (demoMode.enabled sample_config = true ->
   let st_init := initializeDemoReset sample_config 1000 one_login_state in
   lastReset (resetState st_init) = Some 1000 /\
   nextReset (resetState st_init) =
     Some (1000 + demoMode.resetIntervalHours sample_config * 60 * 60 * 1000) /\
   reset_invariant (resetState st_init)).
Proof.
  apply (performDemoReset_clears_and_rearms sample_config 1000 one_login_state).
  eapply reachable_step; [apply reachable_initial|].
  apply (step_login sample_config sample_token sample_token sample_iso
           0 "k3j9x2abc" 0 (initial_state sample_config)).
Defined.

(** ** The simulated response envelope *)

(** C8. For every action and every optional custom message,
    createSimulatedResponse returns an envelope with success = true and
    simulated = true.  With no configured message for the action and no
    custom message, the message is 'Aktion ausgeführt (Demo)' unless the
    action names a member of Object.prototype: then the message is that
    member, which the read of the message table found through the
    prototype chain.  For the action 'constructor' it is the function
    Object. *)
Theorem createSimulatedResponse_inherited_message
    (action : string) (customMessage : option string) :
  success (createSimulatedResponse action customMessage) = true /\
  simulated (createSimulatedResponse action customMessage) = true /\
  (Js.own messages action = None -> customMessage = None ->
   message (createSimulatedResponse action customMessage) =
   match Js.inherited action with
   | Some member => Js.VObject member
   | None => Js.VString "Aktion ausgeführt (Demo)"
   end) /\
  (Js.own messages "constructor" = None /\
   message (createSimulatedResponse "constructor" None) =
   Js.VObject (Js.Builtin "" "Object" 1)).
Proof.
  split; [reflexivity|]. split; [reflexivity|]. split; [|split; reflexivity].
  intros Hnone ->. unfold createSimulatedResponse. cbn [message Js.of_option].
  unfold Js.get. rewrite Hnone. destruct (Js.inherited action); reflexivity.
Qed.

Lemma createSimulatedResponse_inherited_message_witness :
  message (createSimulatedResponse "activity.clear" None) =
    Js.VString "Aktion ausgeführt (Demo)" /\
  message (createSimulatedResponse "toString" None) =
    Js.VObject (Js.Builtin "Object.prototype" "toString" 0).
Proof.
  split.
  - apply (createSimulatedResponse_inherited_message "activity.clear" None);
      reflexivity.
  - apply (createSimulatedResponse_inherited_message "toString" None);
      reflexivity.
Defined.

(** ** The identity resolver *)

Section MiddlewareFacts.

Variable config : demoMode.t.
Variable verifyToken : string -> string -> option TokenPayload.t.

(** The guard keeps every method call away from [undefined]. *)
Lemma extractUserFromToken_normal authHeader :
  exists username, extractUserFromToken verifyToken authHeader = Js.Normal username.
Proof.
  unfold extractUserFromToken. destruct authHeader as [h|]; [|eauto].
  destruct (Js.truthy (Some h)); cbn [negb Js.bind Js.startsWith]; [|eauto].
  destruct (Js.prefix "Bearer " h); cbn [negb Js.bind Js.substring]; eauto.
Qed.

Lemma resolve_username_normal req :
  exists username, resolve_username verifyToken req = Js.Normal username.
Proof.
  unfold resolve_username. destruct (Js.truthy (Req.user req)); [eauto|].
  destruct (extractUserFromToken_normal (Req.authorization req)) as [u ->].
  cbn [Js.bind]. eauto.
Qed.

End MiddlewareFacts.

Lemma isDemoUser_true (username : option string) :
  isDemoUser username = true <-> username = Some "__demo__".
Proof.
  unfold isDemoUser, Js.strict_eq, DEMO_USERNAME.
  destruct username as [u|]; [|split; discriminate].
  rewrite String.eqb_eq. split; congruence.
Qed.

(** What the middleware does, once the caller is resolved. *)
Lemma demoMiddleware_run config verifyToken req username :
  resolve_username verifyToken req = Js.Normal username ->
  demoMiddleware config verifyToken req =
  if isDemoModeEnabled config && isDemoUser username
  then
    let* action := getRouteAction (Req.path req) (Req.method req) in
    Js.Normal (mark_demo username req, decision config action)
  else Js.Normal (req, [CallNext]).
Proof.
  intros Hu. unfold demoMiddleware.
  destruct (isDemoModeEnabled config); [|reflexivity].
  rewrite Hu. cbn [negb andb Js.bind].
  destruct (isDemoUser username); [|reflexivity].
  cbn [negb mark_demo Req.path Req.method].
  destruct (getRouteAction (Req.path req) (Req.method req)) as [action|e] eqn:Hact;
    [|reflexivity].
  cbn [Js.bind].
  destruct (getRouteAction_result _ _ _ Hact) as [->|Ht]; [reflexivity|].
  rewrite Ht. cbn [negb orb]. unfold decision, simulates.
  destruct action as [| |a|n|o]; try reflexivity.
  destruct (shouldSimulateAction config a); reflexivity.
Qed.


Lemma includes_In (arr : list string) (x : string) :
  Js.includes arr x = true <-> In x arr.
Proof.
  unfold Js.includes. rewrite existsb_exists. split.
  - intros (y & Hin & ->%String.eqb_eq). exact Hin.
  - intros Hin. exists x. split; [exact Hin | apply String.eqb_refl].
Qed.

(** C9. For every authorization header that is absent or does not start
    with 'Bearer ', extractUserFromToken returns null, and does not raise,
    whatever the token verifier is. *)
Theorem extractUserFromToken_no_bearer
    (verifyToken : string -> string -> option TokenPayload.t)
    (authHeader : option string) :
  (authHeader = None \/
   exists header, authHeader = Some header /\ Js.prefix "Bearer " header = false) ->
  extractUserFromToken verifyToken authHeader = Js.Normal None.
Proof.
  intros [->|(header & -> & Hprefix)]; [reflexivity|].
  unfold extractUserFromToken.
  destruct (Js.truthy (Some header)); cbn [negb Js.bind Js.startsWith];
    [|reflexivity].
  rewrite Hprefix. reflexivity.
Qed.

Lemma extractUserFromToken_no_bearer_witness :
  extractUserFromToken sample_verifyToken (Some "Basic ZGVtbzpkZW1v") = Js.Normal None /\
  extractUserFromToken sample_verifyToken (Some "bearer demo-token") = Js.Normal None /\
  extractUserFromToken sample_verifyToken None = Js.Normal None.
Proof.
  split; [|split].
  - apply (extractUserFromToken_no_bearer sample_verifyToken (Some "Basic ZGVtbzpkZW1v")).
    right. exists "Basic ZGVtbzpkZW1v". split; reflexivity.
  - apply (extractUserFromToken_no_bearer sample_verifyToken (Some "bearer demo-token")).
    right. exists "bearer demo-token". split; reflexivity.
  - apply (extractUserFromToken_no_bearer sample_verifyToken None).
    left. reflexivity.
Defined.

(** ** The interception middleware *)



(** C1. For every request of the demo identity, with demo mode enabled and
    'backups.create' in the simulated-action list, POST /api/backups is
    answered with exactly { success: true, message: 'Backup wird
    erstellt... (Demo)', simulated: true } and next is not called. *)
Theorem demoMiddleware_simulates_backup
    (config : demoMode.t) (verifyToken : string -> string -> option TokenPayload.t)
    (req : Req.t) :
  isDemoModeEnabled config = true ->
  In "backups.create" (demoMode.simulatedActions config) ->
  resolve_username verifyToken req = Js.Normal (Some "__demo__") ->
  Req.path req = "/api/backups" ->
  Req.method req = "POST" ->
  demoMiddleware config verifyToken req =
  Js.Normal
    (mark_demo (Some "__demo__") req,
     [ResJson {| success := true;
                 message := Js.VString "Backup wird erstellt... (Demo)";
                 simulated := true |}]).
Proof.
  intros Hen Hin Hu Hpath Hmethod.
  rewrite (demoMiddleware_run config verifyToken req (Some "__demo__") Hu).
  rewrite Hen, Hpath, Hmethod.
  change (getRouteAction "/api/backups" "POST")
    with (Js.Normal (Js.VString "backups.create")).
  change (isDemoUser (Some "__demo__")) with true.
  cbn [andb Js.bind decision].
  unfold shouldSimulateAction. rewrite (proj2 (includes_In _ _) Hin).
  reflexivity.
Qed.

Lemma demoMiddleware_simulates_backup_witness :
  demoMiddleware sample_config sample_verifyToken sample_request =
  Js.Normal
    (mark_demo (Some "__demo__") sample_request,
     [ResJson {| success := true;
                 message := Js.VString "Backup wird erstellt... (Demo)";
                 simulated := true |}]).
Proof.
  apply (demoMiddleware_simulates_backup sample_config sample_verifyToken sample_request).
  - reflexivity.
  - simpl. auto.
  - reflexivity.
  - reflexivity.
  - reflexivity.
Defined.

(** C2, as amended. Whenever isDemoModeEnabled() returns false,
    demoMiddleware takes the pass-through decision for every identity and
    every route: it calls next and writes no envelope.  shouldSimulateAction
    itself does not read the flag: it tells whether the action is in the
    configured list. *)
Theorem demo_disabled_passes_through (config : demoMode.t) :
  isDemoModeEnabled config = false ->
  (forall (verifyToken : string -> string -> option TokenPayload.t) (req : Req.t),
     demoMiddleware config verifyToken req = Js.Normal (req, [CallNext])) /\
  (forall action : string,
     shouldSimulateAction config action = true <->
     In action (demoMode.simulatedActions config)).
Proof.
  intros Hoff. split.
  - intros verifyToken req. unfold demoMiddleware. rewrite Hoff. reflexivity.
  - intros action. apply includes_In.
Qed.

Lemma demo_disabled_passes_through_witness :
  demoMiddleware disabled_config sample_verifyToken sample_request =
  Js.Normal (sample_request, [CallNext]).
Proof.
  apply (demo_disabled_passes_through disabled_config); reflexivity.
Defined.

(** C2, as stated, fails: with demo mode disabled and 'server.start' in the
    configured list, shouldSimulateAction('server.start') is true. *)
Lemma shouldSimulateAction_ignores_enabled :
  isDemoModeEnabled disabled_config = false /\
  shouldSimulateAction disabled_config "server.start" <> false.
Proof. split; [reflexivity | discriminate]. Qed.

(** ** Further checks on concrete inputs *)

(** The pattern conversion on a key with a named parameter, as the comment
    in the loop describes it. *)
Example pattern_loop_named_parameter :
  Re.replace_params "/api/players/:name/kick" = "/api/players/[^/]+/kick" /\
  pattern_loop [("/api/players/:name/kick", [("POST", "players.kick")])]
    "/api/players/alice/kick" "POST" = Some (Js.VString "players.kick") /\
  pattern_loop [("/api/players/:name/kick", [("POST", "players.kick")])]
    "/api/players/alice/bob/kick" "POST" = None.
Proof. repeat split. Qed.

(** A literal route read with a method it does not list falls to the
    hard-coded predicates. *)
Example getRouteAction_backups_restore :
  getRouteAction "/api/backups/restore" "POST" = Js.Normal (Js.VString "backups.restore") /\
  getRouteAction "/api/backups/restore" "DELETE" = Js.Normal (Js.VString "backups.delete") /\
  getRouteAction "/api/backups/restore" "GET" = Js.Normal Js.VNull.
Proof. repeat split. Qed.

(** Reads that go through the prototype chain: the own [name] and [length]
    of an inherited method, a static method of [Object], and the prototype
    of Object.prototype. *)
Example getRouteAction_prototype_chain :
  getRouteAction "toString" "name" = Js.Normal (Js.VString "toString") /\
  getRouteAction "constructor" "length" = Js.Normal (Js.VNumber 1) /\
  getRouteAction "toString" "length" = Js.Normal Js.VNull /\
  getRouteAction "constructor" "keys" =
    Js.Normal (Js.VObject (Js.Builtin "Object" "keys" 1)) /\
  getRouteAction "__proto__" "__proto__" = Js.Normal Js.VNull /\
  getRouteAction "constructor" "arguments" = Js.Throw "TypeError".
Proof. repeat split. Qed.

(** 'server.start' is simulated when listed; the read action 'users.view'
    is not. *)
Example shouldSimulateAction_sample :
  shouldSimulateAction sample_config "server.start" = true /\
  shouldSimulateAction sample_config "users.view" = false.
Proof. split; reflexivity. Qed.

(** GET /api/players of the demo identity passes through, the request
    carrying the demo marker. *)
Example demoMiddleware_get_players :
  let req :=
    {| Req.user := Some "__demo__"; Req.isDemo := None;
       Req.path := "/api/players"; Req.method := "GET";
       Req.authorization := None |} in
  demoMiddleware sample_config sample_verifyToken req =
  Js.Normal (mark_demo (Some "__demo__") req, [CallNext]).
Proof. reflexivity. Qed.

(** A request of another user is left untouched. *)
Example demoMiddleware_other_user :
  let req :=
    {| Req.user := Some "admin"; Req.isDemo := None;
       Req.path := "/api/backups"; Req.method := "POST";
       Req.authorization := Some "Bearer demo-token" |} in
  demoMiddleware sample_config sample_verifyToken req = Js.Normal (req, [CallNext]).
Proof. reflexivity. Qed.

(** An inherited function returned as the action is not simulated, and its
    request passes through. *)
Example demoMiddleware_inherited_function :
  let req :=
    {| Req.user := Some "__demo__"; Req.isDemo := None;
       Req.path := "/api/backups"; Req.method := "constructor";
       Req.authorization := None |} in
  demoMiddleware sample_config sample_verifyToken req =
  Js.Normal (mark_demo (Some "__demo__") req, [CallNext]).
Proof. reflexivity. Qed.



(** * Further properties of the code *)

(** ** The rules of the registry do not overlap *)

Lemma test_literal_app_inv p r s :
  Re.test (Re.literal p ++ r) s = true ->
  exists t, s = p +:+ t /\ Re.test r t = true.
Proof.
  revert s. induction p as [|c p IH]; intros s; [eauto|].
  cbn [Re.literal app]. destruct s as [|c' s]; [discriminate|].
  rewrite ReFacts.test_chr, andb_true_iff, Ascii.eqb_eq.
  intros [<- (t & -> & Ht)%IH]. eauto.
Qed.

(** A path a template accepts is made of segments that fit the template's
    segments one by one. *)
Lemma test_render (t : template) (path : string) :
  Re.test (render t) path = true ->
  exists segments, path = join segments /\ Forall2 segment_fits t segments.
Proof.
  revert path. induction t as [|seg t IH]; intros path.
  - intros ->%ReFacts.test_nil. exists []. split; [reflexivity | constructor].
  - cbn [render flat_map render_segment app].
    destruct path as [|c path]; [discriminate|].
    rewrite ReFacts.test_chr, andb_true_iff, Ascii.eqb_eq. intros [<- Hrest].
    destruct seg as [text|].
    + apply test_literal_app_inv in Hrest as (rest & -> & Hrest).
      destruct (IH _ Hrest) as (segments & -> & Hfit).
      exists (text :: segments). split; [reflexivity|].
      constructor; [reflexivity | exact Hfit].
    + apply ReFacts.test_seg_inv in Hrest as (u & rest & -> & Hne & Hns & Hrest).
      destruct (IH _ Hrest) as (segments & -> & Hfit).
      exists (u :: segments). split; [reflexivity|].
      constructor; [split; assumption | exact Hfit].
Qed.

(** A text without separator ends where the first separator, or the end of
    the path, is. *)
Lemma segment_unique s1 s2 r1 r2 :
  Re.no_slash s1 = true -> Re.no_slash s2 = true ->
  (r1 = "" \/ exists r, r1 = String "/" r) ->
  (r2 = "" \/ exists r, r2 = String "/" r) ->
  s1 +:+ r1 = s2 +:+ r2 -> s1 = s2 /\ r1 = r2.
Proof.
  revert s2. induction s1 as [|c1 s1 IH]; intros [|c2 s2] Hs1 Hs2 Hr1 Hr2 Heq.
  - auto.
  - exfalso. change (r1 = String c2 (s2 +:+ r2)) in Heq.
    destruct Hr1 as [Hr|[r Hr]]; rewrite Heq in Hr; [discriminate Hr|].
    injection Hr as -> _. discriminate Hs2.
  - exfalso. change (String c1 (s1 +:+ r1) = r2) in Heq.
    destruct Hr2 as [Hr|[r Hr]]; rewrite <- Heq in Hr; [discriminate Hr|].
    injection Hr as -> _. discriminate Hs1.
  - change (String c1 (s1 +:+ r1) = String c2 (s2 +:+ r2)) in Heq.
    injection Heq as -> Heq.
    unfold Re.no_slash in Hs1, Hs2. cbn [Re.all_chars] in Hs1, Hs2.
    apply andb_true_iff in Hs1 as [_ Hs1]. apply andb_true_iff in Hs2 as [_ Hs2].
    destruct (IH s2 Hs1 Hs2 Hr1 Hr2 Heq) as [-> ->]. auto.
Qed.

Lemma join_headed segments :
  join segments = "" \/ exists r, join segments = String "/" r.
Proof. destruct segments; [left | right]; cbn; eauto. Qed.

(** A path is made of its segments in one way only. *)
Lemma join_inj segments1 segments2 :
  Forall (fun x => Re.no_slash x = true) segments1 ->
  Forall (fun x => Re.no_slash x = true) segments2 ->
  join segments1 = join segments2 -> segments1 = segments2.
Proof.
  intros H1. revert segments2.
  induction H1 as [|x1 rest1 Hx1 _ IH]; intros segments2 H2 Heq.
  - destruct segments2; [reflexivity | discriminate].
  - destruct H2 as [|x2 rest2 Hx2 H2]; [discriminate|].
    cbn [join] in Heq. injection Heq as Heq.
    destruct (segment_unique _ _ _ _ Hx1 Hx2 (join_headed _) (join_headed _) Heq)
      as [-> Hrest].
    f_equal. auto.
Qed.

Lemma segment_fits_no_slash (t : template) segments :
  template_wf t -> Forall2 segment_fits t segments ->
  Forall (fun x => Re.no_slash x = true) segments.
Proof.
  intros Hwf Hfit. induction Hfit as [|seg x t segments Hx _ IH]; [constructor|].
  apply Forall_cons in Hwf as [Hseg Hwf]. constructor; [|auto].
  destruct seg as [text|]; cbn in Hx; [subst x; exact Hseg | apply Hx].
Qed.

Lemma segment_fits_compatible (t1 t2 : template) segments :
  Forall2 segment_fits t1 segments -> Forall2 segment_fits t2 segments ->
  compatible t1 t2 = true.
Proof.
  intros H1. revert t2.
  induction H1 as [|seg1 x t1 segments Hx1 _ IH]; intros t2 H2.
  - apply Forall2_nil_inv_r in H2 as ->. reflexivity.
  - apply Forall2_cons_inv_r in H2 as (seg2 & t2' & Hx2 & H2 & ->).
    cbn [compatible]. rewrite (IH _ H2), andb_true_r.
    destruct seg1 as [a|], seg2 as [b|]; try reflexivity.
    cbn in Hx1, Hx2. subst. apply String.eqb_refl.
Qed.

(** Templates that accept a common path are compatible. *)
Lemma test_compatible (t1 t2 : template) path :
  template_wf t1 -> template_wf t2 ->
  Re.test (render t1) path = true -> Re.test (render t2) path = true ->
  compatible t1 t2 = true.
Proof.
  intros Hwf1 Hwf2 (segs1 & -> & Hfit1)%test_render (segs2 & Heq & Hfit2)%test_render.
  apply join_inj in Heq; eauto using segment_fits_no_slash.
  subst segs2. eauto using segment_fits_compatible.
Qed.

(** Every declared rule is a well-formed path template. *)
Lemma pattern_rules_templates :
  Forall (fun r => render (template_of (rule_regex r)) = rule_regex r /\
                   template_wf (template_of (rule_regex r))) pattern_rules.
Proof.
  apply List.Forall_forall. intros r Hin. split; revert r Hin;
    apply List.Forall_forall; by_evaluation.
Qed.

(** No two declared rules have the same method and compatible templates. *)
Lemma pattern_rules_pairwise :
  Forall (fun r1 =>
    Forall (fun r2 =>
      String.eqb (rule_method r1) (rule_method r2)
      && compatible (template_of (rule_regex r1)) (template_of (rule_regex r2)) = true ->
      r1 = r2) pattern_rules) pattern_rules.
Proof. by_evaluation. Qed.

(** On a table of plain keys the exact lookup and the pattern loop find the
    same action. *)
Lemma exact_match_found_by_loop table path method action :
  keys_plain table ->
  exact_match_own table path method = Some action ->
  pattern_loop_own table path method = Some action.
Proof.
  unfold keys_plain, exact_match_own.
  induction table as [|[k mm] rest IH]; intros Hpl; [discriminate|].
  apply Forall_cons in Hpl as [Hpk Hpl]. cbn [fst] in Hpk.
  cbn [pattern_loop_own]. destruct (String.eqb_spec k path) as [->|Hne].
  - rewrite own_here.
    rewrite (proj2 (ReFacts.test_plain_key path path Hpk) eq_refl).
    destruct (Js.truthy (Js.own mm method)); [auto | discriminate].
  - rewrite own_skip by assumption. intros Hex.
    destruct (Re.test _ path) eqn:Htest.
    + apply (ReFacts.test_plain_key k path Hpk) in Htest. congruence.
    + cbn [andb]. auto.
Qed.

(** The resolver returns the action of the first declared rule that matches
    the path and the method. *)
Lemma getRouteAction_first_rule path method :
  getRouteAction_own path method =
  rule_action <$> List.find (rule_matches path method) pattern_rules.
Proof.
  unfold getRouteAction_own, pattern_rules. rewrite find_app_first.
  rewrite <- pattern_loop_rules, <- dynamic_routes_rules by auto with registry.
  destruct (exact_match_own ROUTE_ACTION_MAP path method) as [a|] eqn:Hex.
  - rewrite (exact_match_found_by_loop _ _ _ _ ROUTE_ACTION_MAP_keys_plain Hex).
    reflexivity.
  - rewrite pattern_loop_redundant by auto with registry. reflexivity.
Qed.

Lemma matching_rule_unique (path method : string) (r1 r2 : route_rule) :
  In r1 pattern_rules -> In r2 pattern_rules ->
  rule_matches path method r1 = true ->
  rule_matches path method r2 = true ->
  r1 = r2.
Proof.
  intros Hin1 Hin2 [Ht1 Hm1]%andb_true_iff [Ht2 Hm2]%andb_true_iff.
  pose proof pattern_rules_templates as Htpl. rewrite List.Forall_forall in Htpl.
  destruct (Htpl _ Hin1) as [Hr1 Hwf1], (Htpl _ Hin2) as [Hr2 Hwf2].
  pose proof pattern_rules_pairwise as Hpair. rewrite List.Forall_forall in Hpair.
  specialize (Hpair _ Hin1). rewrite List.Forall_forall in Hpair.
  apply (Hpair _ Hin2). apply andb_true_iff. split.
  - apply String.eqb_eq in Hm1, Hm2. subst method. rewrite Hm2.
    apply String.eqb_refl.
  - rewrite <- Hr1 in Ht1. rewrite <- Hr2 in Ht2.
    exact (test_compatible _ _ path Hwf1 Hwf2 Ht1 Ht2).
Qed.

Lemma pattern_rules_NoDup : NoDup pattern_rules.
Proof. by_evaluation. Qed.

(** X1. At most one declared rule matches a given path and method. *)
Theorem pattern_rules_disjoint (path method : string) :
  (List.length (List.filter (rule_matches path method) pattern_rules) <= 1)%nat.
Proof.
  pose proof (List.NoDup_filter (rule_matches path method)
                (proj1 (NoDup_ListNoDup _) pattern_rules_NoDup)) as Hnd.
  assert (forall r, In r (List.filter (rule_matches path method) pattern_rules) ->
                    In r pattern_rules /\ rule_matches path method r = true)
    as Hin by (intros r; apply List.filter_In).
  destruct (List.filter (rule_matches path method) pattern_rules)
    as [|r1 [|r2 rest]]; cbn [List.length]; [lia | lia |].
  exfalso. destruct (Hin r1) as [Hin1 Hm1]; [left; reflexivity|].
  destruct (Hin r2) as [Hin2 Hm2]; [right; left; reflexivity|].
  pose proof (matching_rule_unique path method r1 r2 Hin1 Hin2 Hm1 Hm2) as ->.
  apply List.NoDup_cons_iff in Hnd as [Hnotin _]. apply Hnotin.
  left. reflexivity.
Qed.

(** What the resolver returns is the action of a declared rule that
    matches. *)
Lemma resolved_rule (path method action : string) :
  getRouteAction_own path method = Some action ->
  exists r, In r pattern_rules /\
            rule_matches path method r = true /\
            rule_action r = action.
Proof.
  rewrite getRouteAction_first_rule.
  destruct (List.find _ pattern_rules) as [r|] eqn:Hfind; [|discriminate].
  intros [= <-]. apply List.find_some in Hfind as [Hin Hm]. eauto.
Qed.

(** Every declared rule is for POST, PUT or DELETE, and the paths it
    accepts lie below /api/. *)
Lemma rule_scope (r : route_rule) (path : string) :
  In r pattern_rules -> Re.test (rule_regex r) path = true ->
  In (rule_method r) ["POST"; "PUT"; "DELETE"] /\ Js.prefix "/api/" path = true.
Proof.
  intros Hin Ht.
  assert (Forall (fun r =>
            Js.includes ["POST"; "PUT"; "DELETE"] (rule_method r)
            && match template_of (rule_regex r) with
               | Some first :: _ :: _ => String.eqb first "api"
               | _ => false
               end = true) pattern_rules) as Hall by by_evaluation.
  rewrite List.Forall_forall in Hall.
  destruct (proj1 (andb_true_iff _ _) (Hall _ Hin)) as [Hmethod Hshape].
  split; [apply includes_In, Hmethod|].
  pose proof pattern_rules_templates as Htpl. rewrite List.Forall_forall in Htpl.
  destruct (Htpl _ Hin) as [Hr _]. rewrite <- Hr in Ht.
  apply test_render in Ht as (segments & -> & Hfit).
  destruct (template_of (rule_regex r)) as [|[first|] [|second t]];
    try discriminate Hshape.
  apply String.eqb_eq in Hshape. subst first.
  apply Forall2_cons_inv_l in Hfit as (x1 & rest1 & Hx1 & Hfit & ->).
  apply Forall2_cons_inv_l in Hfit as (x2 & rest2 & _ & _ & ->).
  cbn in Hx1. subst x1. reflexivity.
Qed.

(** A rule that matches is for a method that names no member of
    Object.prototype. *)
Lemma rule_method_plain (r : route_rule) (path method : string) :
  In r pattern_rules -> rule_matches path method r = true -> plain_name method.
Proof.
  intros Hin [Ht Hm]%andb_true_iff. apply String.eqb_eq in Hm.
  destruct (rule_scope r path Hin Ht) as [Hmethod _]. rewrite Hm.
  cbn in Hmethod. destruct Hmethod as [H|[H|[H|[]]]]; rewrite <- H; reflexivity.
Qed.

(** X2. For a path that is not the name of a member of Object.prototype,
    the resolver returns an action exactly when some declared rule matches
    the path and the method, and then it is that rule's action: the order
    in which the rules are declared does not matter. *)
Theorem getRouteAction_any_rule (path method action : string) :
  plain_name path ->
  (getRouteAction path method = Js.Normal (Js.VString action) <->
   exists r, In r pattern_rules /\
             rule_matches path method r = true /\
             rule_action r = action).
Proof.
  intros Hp. split.
  - intros Hact. apply resolved_rule, getRouteAction_string; assumption.
  - intros (r & Hin & Hm & <-).
    rewrite (getRouteAction_plain _ _ Hp (rule_method_plain r path method Hin Hm)).
    rewrite getRouteAction_first_rule.
    destruct (List.find _ pattern_rules) as [r0|] eqn:Hfind.
    + apply List.find_some in Hfind as [Hin0 Hm0].
      rewrite (matching_rule_unique path method r0 r Hin0 Hin Hm0 Hm).
      reflexivity.
    + rewrite (List.find_none _ _ Hfind r Hin) in Hm. discriminate.
Qed.

Lemma getRouteAction_any_rule_witness :
  getRouteAction "/api/roles/admin" "PUT" = Js.Normal (Js.VString "roles.manage").
Proof.
  apply (getRouteAction_any_rule "/api/roles/admin" "PUT" "roles.manage");
    [reflexivity|].
  exists (rule "/api/roles/[^/]+" "PUT" "roles.manage").
  split; [vm_compute; tauto | split; reflexivity].
Defined.

(** X3. For a path that is not the name of a member of Object.prototype,
    the resolver returns an action only for the methods POST, PUT and
    DELETE, and only for paths below /api/. *)
Theorem getRouteAction_scope (path method action : string) :
  plain_name path ->
  getRouteAction path method = Js.Normal (Js.VString action) ->
  In method ["POST"; "PUT"; "DELETE"] /\ Js.prefix "/api/" path = true.
Proof.
  intros Hp Hact. apply (getRouteAction_string _ _ _ Hp) in Hact.
  apply resolved_rule in Hact as (r & Hin & [Ht Hm]%andb_true_iff & _).
  apply String.eqb_eq in Hm. subst method.
  exact (rule_scope r path Hin Ht).
Qed.

Lemma getRouteAction_scope_witness :
  In "DELETE" ["POST"; "PUT"; "DELETE"] /\
  Js.prefix "/api/" "/api/management/mods/worldedit.jar" = true.
Proof.
  apply (getRouteAction_scope "/api/management/mods/worldedit.jar" "DELETE" "mods.delete");
    reflexivity.
Defined.

(** X4. Every action the resolver returns for a path that is not the name
    of a member of Object.prototype, other than 'activity.clear', has a
    message of its own in the table of createSimulatedResponse, and the
    envelope built for it carries that message; for 'activity.clear' the
    envelope carries the fallback message. *)
Theorem getRouteAction_message (path method action : string) :
  plain_name path ->
  getRouteAction path method = Js.Normal (Js.VString action) ->
  (action = "activity.clear" /\
   message (createSimulatedResponse action None) = Js.VString fallback_message) \/
  (exists text,
     Js.own messages action = Some text /\ text <> "" /\
     message (createSimulatedResponse action None) = Js.VString text).
Proof.
  intros Hp Hact. apply (getRouteAction_string _ _ _ Hp) in Hact.
  apply resolved_rule in Hact as (r & Hin & _ & <-).
  assert (Forall (fun r =>
            String.eqb (rule_action r) "activity.clear"
            || Js.truthy (Js.own messages (rule_action r)) = true) pattern_rules)
    as Hall by by_evaluation.
  rewrite List.Forall_forall in Hall.
  destruct (proj1 (orb_true_iff _ _) (Hall _ Hin)) as [->%String.eqb_eq|Htruthy].
  - left. split; reflexivity.
  - right. unfold createSimulatedResponse. cbn [message Js.of_option].
    destruct (Js.own messages (rule_action r)) as [[|c text]|] eqn:Hown;
      try discriminate.
    exists (String c text). rewrite (get_own _ _ _ Hown).
    repeat split. discriminate.
Qed.

Lemma getRouteAction_message_witness :
  (("players.kick" : string) = "activity.clear" /\
   message (createSimulatedResponse "players.kick" None) = Js.VString fallback_message) \/
  (exists text,
     Js.own messages "players.kick" = Some text /\ text <> "" /\
     message (createSimulatedResponse "players.kick" None) = Js.VString text).
Proof.
  apply (getRouteAction_message "/api/players/alice/kick" "POST" "players.kick");
    reflexivity.
Defined.

(** ** The middleware's decision *)

(** X5. demoMiddleware answers with an envelope exactly when demo mode is
    enabled, the caller resolves to '__demo__', the route resolves to an
    action and that action is in the configured list; the envelope is the
    one createSimulatedResponse builds for that action, and the request is
    marked as demo. *)
Theorem demoMiddleware_simulates_iff
    (config : demoMode.t) (verifyToken : string -> string -> option TokenPayload.t)
    (req req' : Req.t) (body : SimulatedResponse) :
  demoMiddleware config verifyToken req = Js.Normal (req', [ResJson body]) <->
  isDemoModeEnabled config = true /\
  resolve_username verifyToken req = Js.Normal (Some "__demo__") /\
  req' = mark_demo (Some "__demo__") req /\
  exists action,
    getRouteAction (Req.path req) (Req.method req) = Js.Normal (Js.VString action) /\
    In action (demoMode.simulatedActions config) /\
    body = createSimulatedResponse action None.
Proof.
  destruct (resolve_username_normal verifyToken req) as [username Hu].
  rewrite (demoMiddleware_run config verifyToken req username Hu), Hu. split.
  - destruct (isDemoModeEnabled config); [|discriminate].
    destruct (isDemoUser username) eqn:Hdemo; [|discriminate].
    apply isDemoUser_true in Hdemo as ->. cbn [andb].
    destruct (getRouteAction _ _) as [[| |action|n|o]|e];
      cbn [Js.bind decision]; try discriminate.
    destruct (shouldSimulateAction config action) eqn:Hsim; [|discriminate].
    intros [= <- <-]. repeat split. exists action.
    repeat split. apply includes_In, Hsim.
  - intros (-> & [= ->] & -> & action & -> & Hin & ->).
    apply includes_In in Hin. cbn [Js.bind decision].
    unfold shouldSimulateAction. rewrite Hin.
    reflexivity.
Qed.

Lemma demoMiddleware_simulates_iff_witness :
  isDemoModeEnabled sample_config = true /\
  resolve_username sample_verifyToken sample_request = Js.Normal (Some "__demo__") /\
  mark_demo (Some "__demo__") sample_request = mark_demo (Some "__demo__") sample_request /\
  exists action,
    getRouteAction (Req.path sample_request) (Req.method sample_request) =
      Js.Normal (Js.VString action) /\
    In action (demoMode.simulatedActions sample_config) /\
    createSimulatedResponse "backups.create" None = createSimulatedResponse action None.
Proof.
  apply (demoMiddleware_simulates_iff sample_config sample_verifyToken sample_request).
  reflexivity.
Defined.

(** X6. A request whose path is not the name of a member of
    Object.prototype, and whose method is not POST, PUT or DELETE or whose
    path is not below /api/, is never answered by the middleware: next is
    called once and nothing is written, whoever the caller is. *)
Theorem demoMiddleware_reads_pass_through
    (config : demoMode.t) (verifyToken : string -> string -> option TokenPayload.t)
    (req : Req.t) :
  plain_name (Req.path req) ->
  ~ In (Req.method req) ["POST"; "PUT"; "DELETE"] \/
  Js.prefix "/api/" (Req.path req) = false ->
  exists req', demoMiddleware config verifyToken req = Js.Normal (req', [CallNext]).
Proof.
  intros Hp Hout.
  destruct (getRouteAction_normal _ (Req.method req) Hp) as [v Hv].
  assert (decision config v = [CallNext]) as Hdec.
  { destruct v as [| |a|n|o]; try reflexivity. exfalso.
    apply (getRouteAction_string _ _ _ Hp) in Hv.
    apply resolved_rule in Hv as (r & Hin & [Ht Hm]%andb_true_iff & _).
    apply String.eqb_eq in Hm. destruct (rule_scope r _ Hin Ht) as [Hmethod Hpre].
    rewrite <- Hm in Hmethod.
    destruct Hout as [Hout|Hout]; [contradiction | congruence]. }
  destruct (resolve_username_normal verifyToken req) as [username Hu].
  rewrite (demoMiddleware_run config verifyToken req username Hu), Hv.
  cbn [Js.bind]. rewrite Hdec.
  destruct (_ && _); eauto.
Qed.

Lemma demoMiddleware_reads_pass_through_witness :
  exists req',
    demoMiddleware sample_config sample_verifyToken
      {| Req.user := Some "__demo__"; Req.isDemo := None;
         Req.path := "/api/backups"; Req.method := "GET";
         Req.authorization := None |} = Js.Normal (req', [CallNext]).
Proof.
  apply (demoMiddleware_reads_pass_through sample_config sample_verifyToken);
    [reflexivity|].
  left. cbn. intros [H|[H|[H|[]]]]; discriminate H.
Defined.

(** X7. The middleware never changes the path, the method or the
    authorization header of a request.  It leaves the whole request as it
    is and calls next, or it sets user to '__demo__' and isDemo to true,
    after which checkDemoUser holds of the request. *)
Theorem demoMiddleware_request
    (config : demoMode.t) (verifyToken : string -> string -> option TokenPayload.t)
    (req req' : Req.t) (effects : list effect) :
  demoMiddleware config verifyToken req = Js.Normal (req', effects) ->
  (Req.path req' = Req.path req /\
   Req.method req' = Req.method req /\
   Req.authorization req' = Req.authorization req) /\
  ((req' = req /\ effects = [CallNext]) \/
   (Req.user req' = Some "__demo__" /\ Req.isDemo req' = Some true /\
    checkDemoUser config req' = true)).
Proof.
  destruct (resolve_username_normal verifyToken req) as [username Hu].
  rewrite (demoMiddleware_run config verifyToken req username Hu).
  destruct (isDemoModeEnabled config) eqn:Hen; cbn [andb].
  - destruct (isDemoUser username) eqn:Hdemo.
    + apply isDemoUser_true in Hdemo as ->.
      destruct (getRouteAction _ _) as [action|e]; cbn [Js.bind]; [|discriminate].
      intros [= <- _].
      split; [repeat split|]. right. repeat split.
      unfold checkDemoUser. rewrite Hen. reflexivity.
    + intros [= <- <-]. split; [repeat split|]. left. split; reflexivity.
  - intros [= <- <-]. split; [repeat split|]. left. split; reflexivity.
Qed.

Lemma demoMiddleware_request_witness :
  (Req.path (mark_demo (Some "__demo__") sample_request) = Req.path sample_request /\
   Req.method (mark_demo (Some "__demo__") sample_request) = Req.method sample_request /\
   Req.authorization (mark_demo (Some "__demo__") sample_request) =
     Req.authorization sample_request) /\
  ((mark_demo (Some "__demo__") sample_request = sample_request /\
    [ResJson (createSimulatedResponse "backups.create" None)] = [CallNext]) \/
   (Req.user (mark_demo (Some "__demo__") sample_request) = Some "__demo__" /\
    Req.isDemo (mark_demo (Some "__demo__") sample_request) = Some true /\
    checkDemoUser sample_config (mark_demo (Some "__demo__") sample_request) = true)).
Proof.
  apply (demoMiddleware_request sample_config sample_verifyToken sample_request).
  reflexivity.
Defined.

(** X8. Running the middleware again on the request it left gives the same
    request and the same decision. *)
Theorem demoMiddleware_idempotent
    (config : demoMode.t) (verifyToken : string -> string -> option TokenPayload.t)
    (req req' : Req.t) (effects : list effect) :
  demoMiddleware config verifyToken req = Js.Normal (req', effects) ->
  demoMiddleware config verifyToken req' = Js.Normal (req', effects).
Proof.
  destruct (resolve_username_normal verifyToken req) as [username Hu].
  rewrite (demoMiddleware_run config verifyToken req username Hu).
  destruct (isDemoModeEnabled config && isDemoUser username) eqn:Hmark.
  - apply andb_true_iff in Hmark as [Hen ->%isDemoUser_true].
    destruct (getRouteAction (Req.path req) (Req.method req)) as [action|e] eqn:Hact;
      cbn [Js.bind]; [|discriminate].
    intros [= <- <-].
    rewrite (demoMiddleware_run config verifyToken
               (mark_demo (Some "__demo__") req) (Some "__demo__") eq_refl).
    rewrite Hen. cbn [mark_demo Req.path Req.method]. rewrite Hact.
    reflexivity.
  - intros [= <- <-].
    rewrite (demoMiddleware_run config verifyToken req username Hu), Hmark.
    reflexivity.
Qed.

Lemma demoMiddleware_idempotent_witness :
  demoMiddleware sample_config sample_verifyToken (mark_demo (Some "__demo__") sample_request) =
  Js.Normal (mark_demo (Some "__demo__") sample_request,
             [ResJson (createSimulatedResponse "backups.create" None)]).
Proof.
  apply (demoMiddleware_idempotent sample_config sample_verifyToken sample_request).
  reflexivity.
Defined.

(** X9. A request already attributed to a user other than '__demo__' is
    never intercepted, whatever authorization header it carries and
    whatever the token verifier answers: the identity attached to the
    request takes precedence over the authorization header. *)
Theorem demoMiddleware_attached_user
    (config : demoMode.t) (verifyToken : string -> string -> option TokenPayload.t)
    (req : Req.t) (user : string) :
  Req.user req = Some user -> user <> "" -> user <> "__demo__" ->
  demoMiddleware config verifyToken req = Js.Normal (req, [CallNext]).
Proof.
  intros Huser Hne Hother.
  assert (resolve_username verifyToken req = Js.Normal (Some user)) as Hu.
  { unfold resolve_username. rewrite Huser.
    destruct user; [congruence | reflexivity]. }
  rewrite (demoMiddleware_run config verifyToken req (Some user) Hu).
  assert (isDemoUser (Some user) = false) as ->; [|rewrite andb_false_r; reflexivity].
  apply not_true_iff_false. rewrite isDemoUser_true. congruence.
Qed.

Lemma demoMiddleware_attached_user_witness :
  let req :=
    {| Req.user := Some "admin"; Req.isDemo := None;
       Req.path := "/api/backups"; Req.method := "POST";
       Req.authorization := Some "Bearer demo-token" |} in
  demoMiddleware sample_config sample_verifyToken req = Js.Normal (req, [CallNext]).
Proof.
  apply (demoMiddleware_attached_user sample_config sample_verifyToken _ "admin");
    [reflexivity | discriminate | discriminate].
Defined.

(** ** The identity resolver on bearer tokens *)

Lemma substring_all (s : string) : String.substring 0 (String.length s) s = s.
Proof. induction s as [|c s IH]; [reflexivity|]. cbn. rewrite IH. reflexivity. Qed.

Lemma prefix_split (p s : string) :
  Js.prefix p s = true -> exists rest, s = p +:+ rest.
Proof.
  revert s. induction p as [|a p IH]; intros s; [exists s; reflexivity|].
  destruct s as [|b s]; [discriminate|]. cbn [Js.prefix].
  rewrite andb_true_iff, Ascii.eqb_eq. intros [-> (rest & ->)%IH].
  exists rest. reflexivity.
Qed.

(** The guard lets a bearer header through, and the text after the prefix
    is what the verifier is given, for the token kind 'access'. *)
Lemma extractUserFromToken_bearer_run
    (verifyToken : string -> string -> option TokenPayload.t) (token : string) :
  extractUserFromToken verifyToken (Some ("Bearer " +:+ token)) =
  Js.Normal (Js.or (TokenPayload.username <$> verifyToken token "access") None).
Proof.
  unfold extractUserFromToken.
  change (Js.truthy (Some ("Bearer " +:+ token))) with true.
  cbn [negb Js.bind Js.startsWith].
  change (Js.prefix "Bearer " ("Bearer " +:+ token)) with true.
  cbn [negb Js.bind Js.substring].
  change (String.substring 7 (String.length ("Bearer " +:+ token) - 7)
            ("Bearer " +:+ token))
    with (String.substring 0 (String.length token - 0) token).
  rewrite Nat.sub_0_r, substring_all. reflexivity.
Qed.

Lemma extractUserFromToken_no_bearer_aux
    (verifyToken : string -> string -> option TokenPayload.t) (header : string) :
  Js.prefix "Bearer " header = false ->
  extractUserFromToken verifyToken (Some header) = Js.Normal None.
Proof.
  intros Hprefix. unfold extractUserFromToken.
  destruct (Js.truthy (Some header)); cbn [negb Js.bind Js.startsWith];
    [|reflexivity].
  rewrite Hprefix. reflexivity.
Qed.

(** X10. extractUserFromToken returns a user name exactly when the header
    is 'Bearer ' followed by a token for which verifyToken(token, 'access')
    returns a payload with a non-empty username, and then it returns that
    username; it never returns the empty string. *)
Theorem extractUserFromToken_identity
    (verifyToken : string -> string -> option TokenPayload.t)
    (authHeader : option string) (user : string) :
  extractUserFromToken verifyToken authHeader = Js.Normal (Some user) <->
  exists token payload,
    authHeader = Some ("Bearer " +:+ token) /\
    verifyToken token "access" = Some payload /\
    TokenPayload.username payload = user /\
    user <> "".
Proof.
  split.
  - destruct authHeader as [header|]; [|discriminate].
    destruct (Js.prefix "Bearer " header) eqn:Hprefix.
    + apply prefix_split in Hprefix as (token & ->).
      rewrite extractUserFromToken_bearer_run.
      destruct (verifyToken token "access") as [payload|] eqn:Hverify;
        [|discriminate].
      cbn [fmap option_fmap option_map]. unfold Js.or.
      destruct (Js.truthy (Some (TokenPayload.username payload))) eqn:Ht;
        [|discriminate].
      intros [= <-]. exists token, payload. repeat split; [exact Hverify|].
      intros Hempty. rewrite Hempty in Ht. discriminate Ht.
    + rewrite (extractUserFromToken_no_bearer_aux verifyToken header Hprefix).
      discriminate.
  - intros (token & payload & -> & Hverify & <- & Hne).
    rewrite extractUserFromToken_bearer_run, Hverify.
    cbn [fmap option_fmap option_map]. unfold Js.or.
    destruct (TokenPayload.username payload); [congruence | reflexivity].
Qed.

Lemma extractUserFromToken_identity_witness :
  extractUserFromToken sample_verifyToken (Some "Bearer demo-token") =
  Js.Normal (Some "__demo__").
Proof.
  apply (extractUserFromToken_identity sample_verifyToken
           (Some "Bearer demo-token") "__demo__").
  exists "demo-token", {| TokenPayload.username := "__demo__" |}.
  repeat split. discriminate.
Defined.

(** ** The session store over time *)

(** X11. Counting at a time and again at a later (or the same) time gives
    the same state and the same count as counting at the later time only;
    the count never grows between the two queries, and never exceeds the
    number of stored sessions. *)
Theorem getActiveDemoSessionCount_later (now1 now2 : Z) (st : ServiceState) :
  now1 <= now2 ->
  getActiveDemoSessionCount now2 (getActiveDemoSessionCount now1 st).2 =
    getActiveDemoSessionCount now2 st /\
  ((getActiveDemoSessionCount now2 st).1 <= (getActiveDemoSessionCount now1 st).1
   <= size (demoSessions st))%nat.
Proof.
  intros Hle. rewrite !getActiveDemoSessionCount_filter. cbn [fst snd demoSessions resetState intervals].
  assert (filter (active now2) (filter (active now1) (demoSessions st)) =
          filter (active now2) (demoSessions st)) as Hff.
  { apply map_filter_filter_l. intros id session _. unfold active. cbn [snd]. lia. }
  rewrite Hff. split; [reflexivity|]. split.
  - rewrite <- Hff. apply map_subseteq_size, map_filter_subseteq.
  - apply map_subseteq_size, map_filter_subseteq.
Qed.

Lemma getActiveDemoSessionCount_later_witness :
  getActiveDemoSessionCount 86400001 (getActiveDemoSessionCount 5 one_login_state).2 =
    getActiveDemoSessionCount 86400001 one_login_state /\
  ((getActiveDemoSessionCount 86400001 one_login_state).1
   <= (getActiveDemoSessionCount 5 one_login_state).1
   <= size (demoSessions one_login_state))%nat.
Proof.
  apply (getActiveDemoSessionCount_later 5 86400001 one_login_state). lia.
Defined.

Section LoginFacts.

Variable createAccessToken createRefreshToken : string -> string.
Variable toISOString : Z -> string.

(** X12. A login under a session id that is not in the store adds exactly
    one to the count, at every time up to the expiry of the new session. *)
Theorem createDemoLogin_adds_one (clock : Z) (rnd : string) (T now : Z)
    (st : ServiceState) :
  demoSessions st !! generateSessionId clock rnd = None ->
  now <= T + 24 * 60 * 60 * 1000 ->
  (getActiveDemoSessionCount now
     (createDemoLogin createAccessToken createRefreshToken toISOString
        clock rnd T st).2).1 =
  S (getActiveDemoSessionCount now st).1.
Proof.
  intros Hfresh Hnow. rewrite !getActiveDemoSessionCount_filter.
  cbn [fst snd createDemoLogin demoSessions].
  rewrite map_filter_insert_True
    by (unfold active, SESSION_TTL_MS; cbn [snd expiresAt]; lia).
  apply map_size_insert_None, map_lookup_filter_None_2. left. exact Hfresh.
Qed.

(** X13. A login under a session id that is already in the store replaces
    that session: the number of stored sessions stays the same, and the
    other sessions, the reset state and the timers are untouched. *)
Theorem createDemoLogin_collision (clock : Z) (rnd : string) (T : Z)
    (st : ServiceState) :
  is_Some (demoSessions st !! generateSessionId clock rnd) ->
  let st' :=
    (createDemoLogin createAccessToken createRefreshToken toISOString
       clock rnd T st).2 in
  size (demoSessions st') = size (demoSessions st) /\
  (exists session, demoSessions st' !! generateSessionId clock rnd = Some session /\
                   createdAt session = T) /\
  (forall id, id <> generateSessionId clock rnd ->
              demoSessions st' !! id = demoSessions st !! id) /\
  resetState st' = resetState st /\ intervals st' = intervals st.
Proof.
  intros Hthere st'. subst st'. cbn [snd createDemoLogin demoSessions resetState intervals].
  split; [apply map_size_insert_Some, Hthere|].
  split; [eexists; split; [apply lookup_insert_eq | reflexivity]|].
  split; [|split; reflexivity].
  intros id Hid. apply lookup_insert_ne. congruence.
Qed.

End LoginFacts.

Lemma createDemoLogin_adds_one_witness :
  (getActiveDemoSessionCount 1000
     (createDemoLogin sample_token sample_token sample_iso 7 "zzzzzzzzz" 500
        one_login_state).2).1 =
  S (getActiveDemoSessionCount 1000 one_login_state).1.
Proof.
  apply (createDemoLogin_adds_one sample_token sample_token sample_iso
           7 "zzzzzzzzz" 500 1000 one_login_state).
  - vm_compute. reflexivity.
  - lia.
Defined.

Lemma createDemoLogin_collision_witness :
  let st' :=
    (createDemoLogin sample_token sample_token sample_iso 0 "k3j9x2abc" 500
       one_login_state).2 in
  size (demoSessions st') = size (demoSessions one_login_state) /\
  (exists session, demoSessions st' !! generateSessionId 0 "k3j9x2abc" = Some session /\
                   createdAt session = 500) /\
  (forall id, id <> generateSessionId 0 "k3j9x2abc" ->
              demoSessions st' !! id = demoSessions one_login_state !! id) /\
  resetState st' = resetState one_login_state /\
  intervals st' = intervals one_login_state.
Proof.
  apply (createDemoLogin_collision sample_token sample_token sample_iso
           0 "k3j9x2abc" 500 one_login_state).
  vm_compute. eauto.
Defined.

(** ** Invariants of the module state *)

(** X14. In every state the module reaches, each stored session is filed
    under its own session id, belongs to '__demo__', and expires 24 hours
    after its creation. *)
Theorem reachable_sessions_well_formed (config : demoMode.t) (st : ServiceState)
    (id : string) (session : DemoSession) :
  reachable config st ->
  demoSessions st !! id = Some session ->
  sessionId session = id /\
  username session = "__demo__" /\
  expiresAt session = createdAt session + 24 * 60 * 60 * 1000.
Proof.
  intros Hreach. revert id session.
  induction Hreach as [|st st' _ IH Hstep]; intros id session.
  - cbn. rewrite lookup_empty. discriminate.
  - destruct Hstep; cbn [snd demoSessions performDemoReset createDemoLogin].
    + unfold initializeDemoReset. destruct (negb _); apply IH.
    + rewrite lookup_empty. discriminate.
    + rewrite lookup_empty. discriminate.
    + destruct (decide (generateSessionId clock rnd = id)) as [<-|Hne].
      * rewrite lookup_insert_eq. intros [= <-]. repeat split.
      * rewrite lookup_insert_ne by exact Hne. apply IH.
    + rewrite getActiveDemoSessionCount_filter. cbn [snd demoSessions].
      intros Hfilter%map_lookup_filter_Some_1_1. exact (IH _ _ Hfilter).
Qed.

Lemma reachable_sessions_well_formed_witness :
  sessionId
    {| username := DEMO_USERNAME; createdAt := 0; expiresAt := 0 + SESSION_TTL_MS;
       sessionId := generateSessionId 0 "k3j9x2abc" |} = generateSessionId 0 "k3j9x2abc" /\
  username
    {| username := DEMO_USERNAME; createdAt := 0; expiresAt := 0 + SESSION_TTL_MS;
       sessionId := generateSessionId 0 "k3j9x2abc" |} = "__demo__" /\
  expiresAt
    {| username := DEMO_USERNAME; createdAt := 0; expiresAt := 0 + SESSION_TTL_MS;
       sessionId := generateSessionId 0 "k3j9x2abc" |} =
  createdAt
    {| username := DEMO_USERNAME; createdAt := 0; expiresAt := 0 + SESSION_TTL_MS;
       sessionId := generateSessionId 0 "k3j9x2abc" |} + 24 * 60 * 60 * 1000.
Proof.
  apply (reachable_sessions_well_formed sample_config one_login_state
           (generateSessionId 0 "k3j9x2abc")).
  - eapply reachable_step; [apply reachable_initial|].
    apply (step_login sample_config sample_token sample_token sample_iso
             0 "k3j9x2abc" 0 (initial_state sample_config)).
  - vm_compute. reflexivity.
Defined.



(** X16. In every state the module reaches, either no reset time is
    recorded yet (lastReset and nextReset are both null) or nextReset is
    lastReset plus the interval recorded in the reset state; logins and
    counts do not disturb this. *)
Theorem reachable_reset_state (config : demoMode.t) (st : ServiceState) :
  reachable config st ->
  resetIntervalHours (resetState st) = demoMode.resetIntervalHours config /\
  ((lastReset (resetState st) = None /\ nextReset (resetState st) = None) \/
   reset_invariant (resetState st)).
Proof.
  intros Hreach. split.
  - exact (reachable_interval config st Hreach).
  - exact (reachable_reset_invariant config st Hreach).
Qed.

Lemma reachable_reset_state_witness :
  resetIntervalHours (resetState one_login_state) =
    demoMode.resetIntervalHours sample_config /\
  ((lastReset (resetState one_login_state) = None /\
    nextReset (resetState one_login_state) = None) \/
   reset_invariant (resetState one_login_state)).
Proof.
  apply (reachable_reset_state sample_config one_login_state).
  eapply reachable_step; [apply reachable_initial|].
  apply (step_login sample_config sample_token sample_token sample_iso
           0 "k3j9x2abc" 0 (initial_state sample_config)).
Defined.

(** ** The message of the envelope *)

(** X17. The message of the envelope is never a falsy value, and for an
    action that is not the name of a member of Object.prototype it is a
    non-empty string.  A non-empty custom message is the message of the
    envelope, whatever the action; an empty custom message counts as
    none. *)
Theorem createSimulatedResponse_message (action : string) (customMessage : option string) :
  Js.truthy_value (message (createSimulatedResponse action customMessage)) = true /\
  (plain_name action ->
   exists text,
     text <> "" /\
     message (createSimulatedResponse action customMessage) = Js.VString text) /\
  (Js.truthy customMessage = true ->
   message (createSimulatedResponse action customMessage) = Js.of_option customMessage) /\
  (Js.truthy customMessage = false ->
   createSimulatedResponse action customMessage = createSimulatedResponse action None).
Proof.
  assert (Forall (fun kv : string * string => Js.truthy (Some kv.2) = true) messages)
    as Hall by by_evaluation.
  unfold createSimulatedResponse. cbn [message].
  split; [apply or_value_truthy; reflexivity|].
  destruct (Js.truthy customMessage) eqn:Hcustom.
  - destruct customMessage as [[|c text]|]; try discriminate Hcustom.
    split; [|split; [reflexivity | discriminate]].
    intros _. exists (String c text). split; [discriminate | reflexivity].
  - assert (Js.or_value (Js.of_option customMessage) (Js.get messages action) =
            Js.get messages action) as Hor.
    { unfold Js.or_value. rewrite truthy_of_option, Hcustom. reflexivity. }
    rewrite Hor. split; [|split; [discriminate | reflexivity]].
    intros Hplain. rewrite (get_plain _ _ Hplain).
    destruct (Js.own messages action) as [text|] eqn:Hget.
    + pose proof (own_truthy _ _ _ Hall Hget) as Ht.
      exists text. split; [destruct text; [discriminate Ht | discriminate]|].
      unfold Js.or_value. cbn [Js.of_option Js.truthy_value]. rewrite Ht.
      reflexivity.
    + exists fallback_message. split; [discriminate | reflexivity].
Qed.

Lemma createSimulatedResponse_message_witness :
  (exists text,
     text <> "" /\
     message (createSimulatedResponse "server.start" None) = Js.VString text) /\
  message (createSimulatedResponse "server.start" (Some "Nur eine Probe")) =
    Js.VString "Nur eine Probe" /\
  createSimulatedResponse "server.start" (Some "") =
  createSimulatedResponse "server.start" None.
Proof.
  split; [|split].
  - apply (createSimulatedResponse_message "server.start" None).
    reflexivity.
  - apply (createSimulatedResponse_message "server.start" (Some "Nur eine Probe")).
    reflexivity.
  - apply (createSimulatedResponse_message "server.start" (Some "")).
    reflexivity.
Defined.


(** ** Session ids *)

Lemma pretty_N_go_no_underscore (x : N) (s : string) :
  no_underscore s = true -> no_underscore (pretty_N_go x s) = true.
Proof.
  revert s. induction (N.lt_wf_0 x) as [x _ IH]; intros s Hs.
  assert (x = 0 \/ 0 < x)%N as [->|Hpos] by lia.
  - rewrite pretty_N_go_0. exact Hs.
  - rewrite pretty_N_go_step by exact Hpos. apply IH.
    + apply N.div_lt; [exact Hpos | reflexivity].
    + unfold no_underscore. cbn [Re.all_chars]. apply andb_true_iff.
      split; [|exact Hs]. unfold pretty_N_char.
      repeat case_match; reflexivity.
Qed.

Lemma pretty_Z_no_underscore (x : Z) : no_underscore (pretty x) = true.
Proof.
  assert (forall p : positive, no_underscore (pretty p) = true) as Hpos.
  { intros p. unfold pretty, pretty_positive, pretty, pretty_N.
    case_decide; [reflexivity|]. apply pretty_N_go_no_underscore. reflexivity. }
  destruct x as [|p|p]; unfold pretty, pretty_Z; [reflexivity | apply Hpos |].
  change ("-" +:+ pretty p) with (String "-" (pretty p)).
  unfold no_underscore. cbn [Re.all_chars]. apply Hpos.
Qed.

(** A text free of the separator ends where the first separator is. *)
Lemma underscore_split s1 s2 r1 r2 :
  no_underscore s1 = true -> no_underscore s2 = true ->
  s1 +:+ String "_" r1 = s2 +:+ String "_" r2 -> s1 = s2 /\ r1 = r2.
Proof.
  revert s2. induction s1 as [|c1 s1 IH]; intros [|c2 s2] Hs1 Hs2 Heq.
  - injection Heq as ->. auto.
  - exfalso. change (String "_" r1 = String c2 (s2 +:+ String "_" r2)) in Heq.
    injection Heq as <- _. discriminate Hs2.
  - exfalso. change (String c1 (s1 +:+ String "_" r1) = String "_" r2) in Heq.
    injection Heq as -> _. discriminate Hs1.
  - change (String c1 (s1 +:+ String "_" r1) = String c2 (s2 +:+ String "_" r2)) in Heq.
    injection Heq as -> Heq.
    unfold no_underscore in Hs1, Hs2. cbn [Re.all_chars] in Hs1, Hs2.
    apply andb_true_iff in Hs1 as [_ Hs1]. apply andb_true_iff in Hs2 as [_ Hs2].
    destruct (IH s2 Hs1 Hs2 Heq) as [-> ->]. auto.
Qed.

(** X18. Two session ids are the same only if both the clock reading and
    the random text they were made from are the same. *)
Theorem generateSessionId_inj (clock1 clock2 : Z) (rnd1 rnd2 : string) :
  generateSessionId clock1 rnd1 = generateSessionId clock2 rnd2 ->
  clock1 = clock2 /\ rnd1 = rnd2.
Proof.
  unfold generateSessionId.
  change ("demo_" +:+ pretty clock1 +:+ "_" +:+ rnd1)
    with ("demo_" +:+ (pretty clock1 +:+ String "_" rnd1)).
  change ("demo_" +:+ pretty clock2 +:+ "_" +:+ rnd2)
    with ("demo_" +:+ (pretty clock2 +:+ String "_" rnd2)).
  intros [= Heq].
  apply underscore_split in Heq as [Hclock ->];
    auto using pretty_Z_no_underscore.
  split; [|reflexivity]. exact (pretty_Z_inj _ _ Hclock).
Qed.

Lemma generateSessionId_inj_witness :
  (1700000000000 : Z) = 1700000000000 /\ ("k3j9x2abc" : string) = "k3j9x2abc".
Proof.
  apply (generateSessionId_inj 1700000000000 1700000000000 "k3j9x2abc" "k3j9x2abc").
  reflexivity.
Defined.

(** ** Version comparison *)

Module VersionFacts.
Import Versions.

Lemma strip_v_plain (s : code_units) : starts_with_v s = false -> strip_v s = s.
Proof. destruct s as [|u s]; [reflexivity|]. cbn. intros ->. reflexivity. Qed.

(** A list that starts with a character other than whitespace keeps that
    character under [trim]. *)
Lemma trimEnd_head (u : N) (s : code_units) :
  is_whitespace u = false -> exists rest, trimEnd (u :: s) = u :: rest.
Proof.
  intros Hu. cbn [trimEnd]. rewrite Hu. destruct (trimEnd s); eauto.
Qed.

Lemma is_v_not_whitespace (u : N) : is_v u = true -> is_whitespace u = false.
Proof.
  unfold is_v. intros [->%N.eqb_eq | ->%N.eqb_eq]%orb_true_iff; reflexivity.
Qed.

End VersionFacts.

(** X19. A leading 'v' or 'V' makes no difference to the comparison: 'v'
    followed by s equals 'V' followed by s, and both equal s itself when s
    does not begin with 'v' or 'V' (v1.2.6 == 1.2.6). *)
Theorem versionsAreEqual_prefix (s : Versions.code_units) :
  Versions.versionsAreEqual (0x76%N :: s) (0x56%N :: s) = true /\
  (Versions.starts_with_v s = false ->
   Versions.versionsAreEqual (0x76%N :: s) s = true /\
   Versions.versionsAreEqual s (0x56%N :: s) = true).
Proof.
  unfold Versions.versionsAreEqual, Versions.normalizeVersion.
  split; [apply bool_decide_eq_true; reflexivity|].
  intros Hs. rewrite (VersionFacts.strip_v_plain s Hs).
  split; apply bool_decide_eq_true; reflexivity.
Qed.

Lemma versionsAreEqual_prefix_witness :
  (* "v1.2.6" and "1.2.6" *)
  Versions.versionsAreEqual [0x76; 0x31; 0x2E; 0x32; 0x2E; 0x36]%N
    [0x31; 0x2E; 0x32; 0x2E; 0x36]%N = true /\
  Versions.versionsAreEqual [0x31; 0x2E; 0x32; 0x2E; 0x36]%N
    [0x56; 0x31; 0x2E; 0x32; 0x2E; 0x36]%N = true.
Proof.
  apply (versionsAreEqual_prefix [0x31; 0x2E; 0x32; 0x2E; 0x36]%N).
  reflexivity.
Defined.

(** X20. The prefix is removed before the string is trimmed, so a 'v' that
    follows leading whitespace survives normalization: such a version is
    not equal to the same version without whitespace and prefix, when that
    one starts with a character that is neither 'v' nor whitespace. *)
Theorem normalizeVersion_whitespace_before_prefix
    (w v u : N) (s : Versions.code_units) :
  Versions.is_whitespace w = true -> Versions.is_v v = true ->
  Versions.is_v u = false -> Versions.is_whitespace u = false ->
  (exists rest, Versions.normalizeVersion (w :: v :: u :: s) = v :: rest) /\
  Versions.versionsAreEqual (w :: v :: u :: s) (u :: s) = false.
Proof.
  intros Hw Hv Hu Hu'.
  pose proof (VersionFacts.is_v_not_whitespace v Hv) as Hv'.
  assert (Versions.normalizeVersion (w :: v :: u :: s) =
          Versions.trimEnd (v :: u :: s)) as Hleft.
  { unfold Versions.normalizeVersion, Versions.trim, Versions.strip_v.
    assert (Versions.is_v w = false) as ->.
    { destruct (Versions.is_v w) eqn:E; [|reflexivity].
      apply VersionFacts.is_v_not_whitespace in E. congruence. }
    cbn [Versions.trimStart]. rewrite Hw. cbn [Versions.trimStart].
    rewrite Hv'. reflexivity. }
  assert (Versions.normalizeVersion (u :: s) = Versions.trimEnd (u :: s)) as Hright.
  { unfold Versions.normalizeVersion, Versions.trim, Versions.strip_v.
    rewrite Hu. cbn [Versions.trimStart]. rewrite Hu'. reflexivity. }
  destruct (VersionFacts.trimEnd_head v (u :: s) Hv') as [rest Hrest].
  destruct (VersionFacts.trimEnd_head u s Hu') as [rest' Hrest'].
  split; [exists rest; congruence|].
  unfold Versions.versionsAreEqual. apply bool_decide_eq_false.
  rewrite Hleft, Hright, Hrest, Hrest'. intros [= -> _].
  rewrite Hv in Hu. discriminate Hu.
Qed.

Lemma normalizeVersion_whitespace_before_prefix_witness :
  (* " v1.0" and "1.0" *)
  (exists rest,
     Versions.normalizeVersion [0x20; 0x76; 0x31; 0x2E; 0x30]%N = 0x76%N :: rest) /\
  Versions.versionsAreEqual [0x20; 0x76; 0x31; 0x2E; 0x30]%N
    [0x31; 0x2E; 0x30]%N = false.
Proof.
  apply (normalizeVersion_whitespace_before_prefix 0x20 0x76 0x31 [0x2E; 0x30]%N);
    reflexivity.
Defined.
